(** * math32.Line3: a 3D line segment over a pointer-addressed heap

    A shallow embedding of [math32/line3.go].  Go methods on [*Line3]
    read and write through pointers, and [Start()], [End()] and the
    vertex callback hand out pointers into the segment itself, so the
    methods are modelled as computations over an explicit heap in which
    two pointers may designate the same storage.  A nil dereference is a
    run-time panic and is an outcome of its own. *)

From Stdlib Require Import ZArith Bool List Lia.
From Stdlib Require Import Floats.SpecFloat.
From stdpp Require Import gmap.

(** ** float32

    Go's [float32] is IEEE-754 binary32: 24 bits of precision, infinities
    at exponent 128, round to nearest even.  The Standard Library's
    [spec_float] gives these operations for any format; they are
    instantiated here at binary32.  Each arithmetic operation is rounded
    on its own (no fused multiply-add).  [spec_float] has a single NaN. *)

Definition f32_prec : Z := 24.
Definition f32_emax : Z := 128.

Definition float32 : Type := spec_float.

Definition f32_add : float32 -> float32 -> float32 := SFadd f32_prec f32_emax.
Definition f32_sub : float32 -> float32 -> float32 := SFsub f32_prec f32_emax.
Definition f32_mul : float32 -> float32 -> float32 := SFmul f32_prec f32_emax.
Definition f32_div : float32 -> float32 -> float32 := SFdiv f32_prec f32_emax.
Definition f32_sqrt : float32 -> float32 := SFsqrt f32_prec f32_emax.

(** Go's [==] on floats: NaN differs from everything, -0 equals +0. *)
Definition f32_eqb : float32 -> float32 -> bool := SFeqb.

(** A value a [float32] variable can hold: canonical mantissa and
    exponent within the binary32 range. *)
Definition f32_valid (x : float32) : bool := valid_binary f32_prec f32_emax x.

Definition f32_is_finite (x : float32) : bool :=
  match x with
  | S754_zero _ | S754_finite _ _ _ => true
  | S754_infinity _ | S754_nan => false
  end.

Definition f32_is_nan (x : float32) : bool :=
  match x with
  | S754_nan => true
  | _ => false
  end.

Definition f32_zero : float32 := S754_zero false.
Definition f32_negzero : float32 := S754_zero true.
Definition f32_half : float32 := S754_finite false 8388608 (-24).
Definition f32_one : float32 := S754_finite false 8388608 (-23).
Definition f32_two : float32 := S754_finite false 8388608 (-22).
Definition f32_inf : float32 := S754_infinity false.
Definition f32_nan : float32 := S754_nan.

(** ** Vector3 and Matrix4 values

    [Vector3] is a struct of three [float32] components; [Matrix4] is a
    [[16]float32] array, here a record with one field per index. *)

Record Vector3 : Type := mkVector3 { vx : float32; vy : float32; vz : float32 }.

Record Matrix4 : Type := mkMatrix4 {
  m0 : float32; m1 : float32; m2 : float32; m3 : float32;
  m4 : float32; m5 : float32; m6 : float32; m7 : float32;
  m8 : float32; m9 : float32; m10 : float32; m11 : float32;
  m12 : float32; m13 : float32; m14 : float32; m15 : float32 }.

Definition vec_zero : Vector3 := mkVector3 f32_zero f32_zero f32_zero.

Definition vec_finite (v : Vector3) : bool :=
  f32_is_finite (vx v) && f32_is_finite (vy v) && f32_is_finite (vz v).

Definition vec_valid (v : Vector3) : bool :=
  f32_valid (vx v) && f32_valid (vy v) && f32_valid (vz v).

Definition vec_has_nan (v : Vector3) : bool :=
  f32_is_nan (vx v) || f32_is_nan (vy v) || f32_is_nan (vz v).

Definition mat_identity : Matrix4 :=
  mkMatrix4 f32_one f32_zero f32_zero f32_zero
            f32_zero f32_one f32_zero f32_zero
            f32_zero f32_zero f32_one f32_zero
            f32_zero f32_zero f32_zero f32_one.

(** ** Line3

<<
type Line3 struct {
	start Vector3
	end   Vector3
}
>>
    ([end] is a keyword of Rocq, the field is [end_].) *)

Record Line3 : Type := mkLine3 { start : Vector3; end_ : Vector3 }.

Definition line_zero : Line3 := mkLine3 vec_zero vec_zero.

(** ** Pointers and the heap

    A [*Line3] is nil or the address of a [Line3] object.  A [*Vector3]
    is nil, the address of a [Vector3] object of its own, or the address
    of the [start] or [end] field inside a [Line3] object: [&l.start] and
    [&l.end] are interior pointers, which is what makes aliasing between
    a method's vector arguments and its receiver possible. *)

Inductive lptr : Type :=
| LNil
| LObj (a : positive).

Inductive vptr : Type :=
| VNil
| VObj (a : positive)
| VStart (l : positive)
| VEnd (l : positive).

Global Instance lptr_eq_dec : EqDecision lptr.
Proof. solve_decision. Defined.

Global Instance vptr_eq_dec : EqDecision vptr.
Proof. solve_decision. Defined.

Record heap : Type := mkHeap {
  vecs : gmap positive Vector3;
  lines : gmap positive Line3 }.

Definition heap_empty : heap := mkHeap ∅ ∅.

Definition is_vnil (p : vptr) : bool :=
  match p with
  | VNil => true
  | _ => false
  end.

(** [*p] as a value. *)
Definition heap_load (p : vptr) (h : heap) : option Vector3 :=
  match p with
  | VNil => None
  | VObj a => vecs h !! a
  | VStart l => start <$> lines h !! l
  | VEnd l => end_ <$> lines h !! l
  end.

(** [*p = v]. *)
Definition heap_store (p : vptr) (v : Vector3) (h : heap) : option heap :=
  match p with
  | VNil => None
  | VObj a =>
      match vecs h !! a with
      | Some _ => Some (mkHeap (<[a := v]> (vecs h)) (lines h))
      | None => None
      end
  | VStart l =>
      match lines h !! l with
      | Some ln => Some (mkHeap (vecs h) (<[l := mkLine3 v (end_ ln)]> (lines h)))
      | None => None
      end
  | VEnd l =>
      match lines h !! l with
      | Some ln => Some (mkHeap (vecs h) (<[l := mkLine3 (start ln) v]> (lines h)))
      | None => None
      end
  end.

Definition heap_load_line (l : lptr) (h : heap) : option Line3 :=
  match l with
  | LNil => None
  | LObj a => lines h !! a
  end.

Definition heap_store_line (l : lptr) (ln : Line3) (h : heap) : option heap :=
  match l with
  | LNil => None
  | LObj a =>
      match lines h !! a with
      | Some _ => Some (mkHeap (vecs h) (<[a := ln]> (lines h)))
      | None => None
      end
  end.

(** A pointer a Go program can hold: nil, or the address of an object
    that exists.  Go has no way to free an object or to forge an
    address, so every argument of every call is live in this sense. *)
Definition vlive (h : heap) (p : vptr) : Prop := is_Some (heap_load p h).
Definition llive (h : heap) (l : lptr) : Prop := is_Some (heap_load_line l h).
Definition vlive_or_nil (h : heap) (p : vptr) : Prop := p = VNil \/ vlive h p.

(** ** Computations: state passing with panics *)

Inductive res (S A : Type) : Type :=
| Ok (a : A) (s : S)
| Panic.
Arguments Ok {S A} a s.
Arguments Panic {S A}.

Definition M (S A : Type) : Type := S -> res S A.

Definition ret {S A : Type} (a : A) : M S A := fun s => Ok a s.

Definition panic {S A : Type} : M S A := fun _ => Panic.

Definition bind {S A B : Type} (m : M S A) (k : A -> M S B) : M S B :=
  fun s =>
    match m s with
    | Ok a s' => k a s'
    | Panic => Panic
    end.

Notation "'let*' x ':=' m 'in' k" := (bind m (fun x => k))
  (at level 10, x name, m at level 100, k at level 200).

(** Reading or writing through nil panics.  (An address outside the heap
    gets the same outcome; no Go program produces one.) *)
Definition load (p : vptr) : M heap Vector3 :=
  fun h =>
    match heap_load p h with
    | Some v => Ok v h
    | None => Panic
    end.

Definition store (p : vptr) (v : Vector3) : M heap unit :=
  fun h =>
    match heap_store p v h with
    | Some h' => Ok tt h'
    | None => Panic
    end.

Definition load_line (l : lptr) : M heap Line3 :=
  fun h =>
    match heap_load_line l h with
    | Some ln => Ok ln h
    | None => Panic
    end.

Definition store_line (l : lptr) (ln : Line3) : M heap unit :=
  fun h =>
    match heap_store_line l ln h with
    | Some h' => Ok tt h'
    | None => Panic
    end.

(** [&l.start] and [&l.end]: taking the address of a field of a nil
    struct pointer panics. *)
Definition field_start {S : Type} (l : lptr) : M S vptr :=
  match l with
  | LNil => panic
  | LObj a => ret (VStart a)
  end.

Definition field_end {S : Type} (l : lptr) : M S vptr :=
  match l with
  | LNil => panic
  | LObj a => ret (VEnd a)
  end.

(** [new(Line3)]: a zeroed object at an address not in use. *)
Definition new_line : M heap lptr :=
  fun h =>
    let a := fresh (dom (lines h)) in
    Ok (LObj a) (mkHeap (vecs h) (<[a := line_zero]> (lines h))).

(** [*Matrix4]: nil, or a pointer to a matrix holding [m].  [Line3] only
    reads through matrix pointers and a matrix never overlaps a vector,
    so a matrix pointer is represented by the value it points to. *)
Inductive mptr : Type :=
| MNil
| MRef (m : Matrix4).

Definition load_matrix {S : Type} (p : mptr) : M S Matrix4 :=
  match p with
  | MNil => panic
  | MRef m => ret m
  end.

(** ** Vector3 operations

    [Line3] calls the methods below on the vector type, whose Go file is
    absent from the sources; each is modelled from the spec's
    description of the vector interface. *)

(** Modelled from the spec: [NewVector3], absent from the sources; the
    spec's "freshly allocated vector": a new [Vector3] object holding the
    three given components. *)
Definition NewVector3 (x y z : float32) : M heap vptr :=
  fun h =>
    let a := fresh (dom (vecs h)) in
    Ok (VObj a) (mkHeap (<[a := mkVector3 x y z]> (vecs h)) (lines h)).

(** Modelled from the spec: the "componentwise add" of the vector type,
    absent from the sources. *)
Definition vec_add (a b : Vector3) : Vector3 :=
  mkVector3 (f32_add (vx a) (vx b)) (f32_add (vy a) (vy b)) (f32_add (vz a) (vz b)).

(** Modelled from the spec: the "componentwise subtract" of the vector
    type, absent from the sources. *)
Definition vec_sub (a b : Vector3) : Vector3 :=
  mkVector3 (f32_sub (vx a) (vx b)) (f32_sub (vy a) (vy b)) (f32_sub (vz a) (vz b)).

(** Modelled from the spec: the "scalar multiplication" of the vector
    type, absent from the sources. *)
Definition vec_scale (a : Vector3) (s : float32) : Vector3 :=
  mkVector3 (f32_mul (vx a) s) (f32_mul (vy a) s) (f32_mul (vz a) s).

(** Modelled from the spec: the "squared Euclidean distance between two
    vectors", absent from the sources: the sum of the squares of the
    component differences, summed left to right. *)
Definition vec_distance_sq (a b : Vector3) : float32 :=
  let dx := f32_sub (vx a) (vx b) in
  let dy := f32_sub (vy a) (vy b) in
  let dz := f32_sub (vz a) (vz b) in
  f32_add (f32_add (f32_mul dx dx) (f32_mul dy dy)) (f32_mul dz dz).

(** Modelled from the spec: the vector type's "equality", absent from
    the sources; "exact, not epsilon-based": the three components
    compared with [==]. *)
Definition vec_eqb (a b : Vector3) : bool :=
  f32_eqb (vx a) (vx b) && f32_eqb (vy a) (vy b) && f32_eqb (vz a) (vz b).

(** Modelled from the spec: the "in-place transformation by a 4x4 matrix
    (homogeneous transform, perspective divide applied internally)",
    absent from the sources: the point [(x, y, z, 1)] is multiplied by
    the matrix (stored column by column, translation at indices 12 to 14)
    and the first three components are scaled by the inverse of the
    fourth. *)
Definition vec_transform (m : Matrix4) (v : Vector3) : Vector3 :=
  let x := vx v in
  let y := vy v in
  let z := vz v in
  let w := f32_div f32_one
             (f32_add (f32_add (f32_add (f32_mul (m3 m) x) (f32_mul (m7 m) y))
                               (f32_mul (m11 m) z)) (m15 m)) in
  mkVector3
    (f32_mul (f32_add (f32_add (f32_add (f32_mul (m0 m) x) (f32_mul (m4 m) y))
                               (f32_mul (m8 m) z)) (m12 m)) w)
    (f32_mul (f32_add (f32_add (f32_add (f32_mul (m1 m) x) (f32_mul (m5 m) y))
                               (f32_mul (m9 m) z)) (m13 m)) w)
    (f32_mul (f32_add (f32_add (f32_add (f32_mul (m2 m) x) (f32_mul (m6 m) y))
                               (f32_mul (m10 m) z)) (m14 m)) w).

(** Modelled from the spec: [Vector3.AddVectors], absent from the
    sources: the receiver is set to the componentwise sum of [*a] and
    [*b] and returned.  Being componentwise, the result is the sum of
    the values [*a] and [*b] had at the call also when the receiver is
    one of them. *)
Definition Vector3_AddVectors (v a b : vptr) : M heap vptr :=
  let* va := load a in
  let* vb := load b in
  let* _ := store v (vec_add va vb) in
  ret v.

(** Modelled from the spec: [Vector3.SubVectors], absent from the
    sources: the receiver is set to [*a - *b], componentwise, and
    returned. *)
Definition Vector3_SubVectors (v a b : vptr) : M heap vptr :=
  let* va := load a in
  let* vb := load b in
  let* _ := store v (vec_sub va vb) in
  ret v.

(** Modelled from the spec: [Vector3.MultiplyScalar], absent from the
    sources: the receiver is scaled in place and returned. *)
Definition Vector3_MultiplyScalar (v : vptr) (s : float32) : M heap vptr :=
  let* vv := load v in
  let* _ := store v (vec_scale vv s) in
  ret v.

(** Modelled from the spec: [Vector3.DistanceToSquared], absent from
    the sources. *)
Definition Vector3_DistanceToSquared (v other : vptr) : M heap float32 :=
  let* a := load v in
  let* b := load other in
  ret (vec_distance_sq a b).

(** Modelled from the spec: [Vector3.DistanceTo], absent from the
    sources: the "unsquared Euclidean distance", the square root of the
    squared distance ([math32.Sqrt] rounds the binary64 square root of a
    [float32] to [float32], which is the correctly rounded binary32
    square root). *)
Definition Vector3_DistanceTo (v other : vptr) : M heap float32 :=
  let* d := Vector3_DistanceToSquared v other in
  ret (f32_sqrt d).

(** Modelled from the spec: [Vector3.Equals], absent from the
    sources. *)
Definition Vector3_Equals (v other : vptr) : M heap bool :=
  let* a := load v in
  let* b := load other in
  ret (vec_eqb a b).

(** Modelled from the spec: [Vector3.ApplyMatrix4], absent from the
    sources: the receiver is transformed in place and returned; a nil
    matrix panics when its elements are read. *)
Definition Vector3_ApplyMatrix4 (v : vptr) (matrix : mptr) : M heap vptr :=
  let* vv := load v in
  let* m := load_matrix matrix in
  let* _ := store v (vec_transform m vv) in
  ret v.

(** ** Line3 methods

    Each definition follows the body of the Go method of the same name,
    statement by statement. *)

(** [func (l *Line3) Start() *Vector3 { return &l.start }] *)
Definition Line3_Start (l : lptr) : M heap vptr := field_start l.

(** [func (l *Line3) End() *Vector3 { return &l.end }] *)
Definition Line3_End (l : lptr) : M heap vptr := field_end l.

(**
<<
func (l *Line3) Set(start, end *Vector3) *Line3 {
	if start != nil {
		l.start = *start
	}
	if end != nil {
		l.end = *end
	}
	return l
}
>> *)
Definition Line3_Set (l : lptr) (start end_ : vptr) : M heap lptr :=
  let* _ := (if is_vnil start then ret tt
             else let* v := load start in
                  let* p := field_start l in
                  store p v) in
  let* _ := (if is_vnil end_ then ret tt
             else let* v := load end_ in
                  let* p := field_end l in
                  store p v) in
  ret l.

(**
<<
func NewLine3(start, end *Vector3) *Line3 {
	l := new(Line3)
	l.Set(start, end)
	return l
}
>> *)
Definition NewLine3 (start end_ : vptr) : M heap lptr :=
  let* l := new_line in
  let* _ := Line3_Set l start end_ in
  ret l.

(**
<<
func (l *Line3) Copy(other *Line3) *Line3 {
	*l = *other
	return l
}
>> *)
Definition Line3_Copy (l other : lptr) : M heap lptr :=
  let* ln := load_line other in
  let* _ := store_line l ln in
  ret l.

(**
<<
func (l *Line3) Center(optionalTarget *Vector3) *Vector3 {
	var result *Vector3
	if optionalTarget == nil {
		result = NewVector3(0, 0, 0)
	} else {
		result = optionalTarget
	}
	return result.AddVectors(&l.start, &l.end).MultiplyScalar(0.5)
}
>> *)
Definition Line3_Center (l : lptr) (optionalTarget : vptr) : M heap vptr :=
  let* result := (if is_vnil optionalTarget
                  then NewVector3 f32_zero f32_zero f32_zero
                  else ret optionalTarget) in
  let* ps := field_start l in
  let* pe := field_end l in
  let* r := Vector3_AddVectors result ps pe in
  Vector3_MultiplyScalar r f32_half.

(**
<<
func (l *Line3) Delta(optionalTarget *Vector3) *Vector3 {
	var result *Vector3
	if optionalTarget == nil {
		result = NewVector3(0, 0, 0)
	} else {
		result = optionalTarget
	}
	return result.SubVectors(&l.end, &l.start)
}
>> *)
Definition Line3_Delta (l : lptr) (optionalTarget : vptr) : M heap vptr :=
  let* result := (if is_vnil optionalTarget
                  then NewVector3 f32_zero f32_zero f32_zero
                  else ret optionalTarget) in
  let* pe := field_end l in
  let* ps := field_start l in
  Vector3_SubVectors result pe ps.

(** [func (l *Line3) DistanceSq() float32 { return l.start.DistanceToSquared(&l.end) }] *)
Definition Line3_DistanceSq (l : lptr) : M heap float32 :=
  let* ps := field_start l in
  let* pe := field_end l in
  Vector3_DistanceToSquared ps pe.

(** [func (l *Line3) Distance() float32 { return l.start.DistanceTo(&l.end) }] *)
Definition Line3_Distance (l : lptr) : M heap float32 :=
  let* ps := field_start l in
  let* pe := field_end l in
  Vector3_DistanceTo ps pe.

(**
<<
func (l *Line3) ApplyMatrix4(matrix *Matrix4) *Line3 {
	l.start.ApplyMatrix4(matrix)
	l.end.ApplyMatrix4(matrix)
	return l
}
>> *)
Definition Line3_ApplyMatrix4 (l : lptr) (matrix : mptr) : M heap lptr :=
  let* ps := field_start l in
  let* _ := Vector3_ApplyMatrix4 ps matrix in
  let* pe := field_end l in
  let* _ := Vector3_ApplyMatrix4 pe matrix in
  ret l.

(**
<<
func (l *Line3) Equals(other *Line3) bool {
	return other.start.Equals(&l.start) && other.end.Equals(&l.end)
}
>>
    [&&] evaluates its right operand only when the left one is true. *)
Definition Line3_Equals (l other : lptr) : M heap bool :=
  let* os := field_start other in
  let* ls := field_start l in
  let* b := Vector3_Equals os ls in
  if b then
    let* oe := field_end other in
    let* le := field_end l in
    Vector3_Equals oe le
  else ret false.

(** [func (l *Line3) Clone() *Line3 { return NewLine3(&l.start, &l.end) }] *)
Definition Line3_Clone (l : lptr) : M heap lptr :=
  let* ps := field_start l in
  let* pe := field_end l in
  NewLine3 ps pe.

(** ** Vertex traversals

    A callback is a Go closure: besides the heap it may read and write
    the variables it captured, of some type [Σ].  To speak about how
    often and in which order a traversal calls it, every call is
    recorded in a log that the callback itself cannot touch: the pointer
    passed by [OperateOnVertices], the value passed by [ReadVertices]. *)

Inductive call : Type :=
| CallPtr (p : vptr)
| CallVal (v : Vector3).

Section Traversal.
Context {Σ : Type}.

Record world : Type := mkWorld { mem : heap; env : Σ; calls : list call }.

(** [func(vertex *Vector3) bool] and [func(vertex Vector3) bool]. *)
Definition callback (A : Type) : Type := A -> M (heap * Σ) bool.

(** [cb(a)]: runs the callback on the heap and its captured variables
    and appends the call to the log. *)
Definition invoke {A : Type} (note : A -> call) (cb : callback A) (a : A) : M world bool :=
  fun w =>
    match cb a (mem w, env w) with
    | Ok b (h, σ) => Ok b (mkWorld h σ (calls w ++ [note a]))
    | Panic => Panic
    end.

(** A heap computation run inside a traversal. *)
Definition in_mem {A : Type} (m : M heap A) : M world A :=
  fun w =>
    match m (mem w) with
    | Ok a h => Ok a (mkWorld h (env w) (calls w))
    | Panic => Panic
    end.

(**
<<
func (t *Line3) OperateOnVertices(cb func(vertex *Vector3) bool) {
	if cb(&t.start) == true {
		return
	}
	if cb(&t.end) == true {
		return
	}
}
>> *)
Definition Line3_OperateOnVertices (t : lptr) (cb : callback vptr) : M world unit :=
  let* ps := field_start t in
  let* stop := invoke CallPtr cb ps in
  if stop then ret tt
  else
    let* pe := field_end t in
    let* stop := invoke CallPtr cb pe in
    if stop then ret tt
    else ret tt.

(**
<<
func (t *Line3) ReadVertices(cb func(vertex Vector3) bool) {
	if cb(t.start) == true {
		return
	}
	if cb(t.end) == true {
		return
	}
}
>> *)
Definition Line3_ReadVertices (t : lptr) (cb : callback Vector3) : M world unit :=
  let* ps := field_start t in
  let* v := in_mem (load ps) in
  let* stop := invoke CallVal cb v in
  if stop then ret tt
  else
    let* pe := field_end t in
    let* v := in_mem (load pe) in
    let* stop := invoke CallVal cb v in
    if stop then ret tt
    else ret tt.

(** A callback whose only access to the heap is through the pointer it
    is given: it reads the vertex, decides on a new value and whether
    to stop, and writes the new value back. *)
Definition edit_cb (f : Vector3 -> Σ -> bool * Vector3 * Σ) : callback vptr :=
  fun p '(h, σ) =>
    match load p h with
    | Ok v h1 =>
        let '(b, v', σ') := f v σ in
        match store p v' h1 with
        | Ok _ h2 => Ok b (h2, σ')
        | Panic => Panic
        end
    | Panic => Panic
    end.

(** A callback on a vertex value that touches nothing but its own
    parameter and its captured variables. *)
Definition value_cb (f : Vector3 -> Σ -> bool * Σ) : callback Vector3 :=
  fun v '(h, σ) => let '(b, σ') := f v σ in Ok b (h, σ').
End Traversal.
Arguments world Σ : clear implicits.
Arguments callback Σ A : clear implicits.

(** A callback on a vertex pointer that only reads: it looks at the
    vertex it is pointed to and at its captured variables, and writes
    nothing to the heap. *)
Definition read_cb {Σ : Type} (f : Vector3 -> Σ -> bool * Σ) : callback Σ vptr :=
  fun p '(h, σ) =>
    match load p h with
    | Ok v h1 => let '(b, σ') := f v σ in Ok b (h1, σ')
    | Panic => Panic
    end.

(** ** Example heap

    Line 1 and line 2 both run from (0,0,0) to (2,0,0), line 3 from
    (0,0,0) to (2,0,1); line 4 is a degenerate segment at an infinite
    point and line 5 has a coordinate that is not a number.  Vector 1 is
    a vector object outside every line. *)

Definition ex_x1 : Vector3 := mkVector3 f32_one f32_zero f32_zero.
Definition ex_x2 : Vector3 := mkVector3 f32_two f32_zero f32_zero.
Definition ex_x2z1 : Vector3 := mkVector3 f32_two f32_zero f32_one.
Definition ex_far : Vector3 := mkVector3 f32_inf f32_zero f32_zero.
Definition ex_undef : Vector3 := mkVector3 f32_nan f32_zero f32_zero.
Definition ex_all_nan : Vector3 := mkVector3 f32_nan f32_nan f32_nan.

Definition ex_heap : heap :=
  mkHeap (<[1%positive := ex_x2z1]> ∅)
         (<[1%positive := mkLine3 vec_zero ex_x2]>
            (<[2%positive := mkLine3 vec_zero ex_x2]>
               (<[3%positive := mkLine3 vec_zero ex_x2z1]>
                  (<[4%positive := mkLine3 ex_far ex_far]>
                     (<[5%positive := mkLine3 ex_undef ex_undef]> ∅))))).

(** A callback that counts its calls in its captured variable and stops
    at once, and one that counts and goes on. *)
Definition ex_cb_stop {A : Type} : callback nat A :=
  fun _ '(h, n) => Ok true (h, S n).

Definition ex_cb_go {A : Type} : callback nat A :=
  fun _ '(h, n) => Ok false (h, S n).
(** ** Heap lemmas *)

Lemma heap_load_store_same (p : vptr) (v : Vector3) (h h' : heap) :
  heap_store p v h = Some h' -> heap_load p h' = Some v.
Proof.
  destruct p as [|a|l|l]; simpl; try discriminate.
  - destruct (vecs h !! a); intros [= <-]; simpl. apply lookup_insert_eq.
  - destruct (lines h !! l); intros [= <-]; simpl. by rewrite lookup_insert_eq.
  - destruct (lines h !! l); intros [= <-]; simpl. by rewrite lookup_insert_eq.
Qed.

Lemma heap_load_store_other (p q : vptr) (v : Vector3) (h h' : heap) :
  heap_store p v h = Some h' -> q <> p -> heap_load q h' = heap_load q h.
Proof.
  destruct p as [|a|l|l]; simpl; try discriminate.
  - destruct (vecs h !! a); intros [= <-] Hne; destruct q as [|b|k|k]; simpl; try done.
    rewrite lookup_insert_ne; [done | congruence].
  - destruct (lines h !! l) as [ln|] eqn:E; intros [= <-] Hne;
      destruct q as [|b|k|k]; simpl; try done.
    + destruct (decide (l = k)) as [->|]; [congruence | by rewrite lookup_insert_ne].
    + destruct (decide (l = k)) as [->|]; [| by rewrite lookup_insert_ne].
      by rewrite lookup_insert_eq, E.
  - destruct (lines h !! l) as [ln|] eqn:E; intros [= <-] Hne;
      destruct q as [|b|k|k]; simpl; try done.
    + destruct (decide (l = k)) as [->|]; [| by rewrite lookup_insert_ne].
      by rewrite lookup_insert_eq, E.
    + destruct (decide (l = k)) as [->|]; [congruence | by rewrite lookup_insert_ne].
Qed.

Lemma heap_store_live (p : vptr) (v : Vector3) (h : heap) :
  vlive h p -> is_Some (heap_store p v h).
Proof.
  unfold vlive. destruct p as [|a|l|l]; simpl; intros [w Hw]; try discriminate.
  - rewrite Hw. eauto.
  - destruct (lines h !! l); [eauto | discriminate].
  - destruct (lines h !! l); [eauto | discriminate].
Qed.

Lemma heap_load_line_start (a : positive) (ln : Line3) (h : heap) :
  heap_load_line (LObj a) h = Some ln -> heap_load (VStart a) h = Some (start ln).
Proof. simpl. by intros ->. Qed.

Lemma heap_load_line_end (a : positive) (ln : Line3) (h : heap) :
  heap_load_line (LObj a) h = Some ln -> heap_load (VEnd a) h = Some (end_ ln).
Proof. simpl. by intros ->. Qed.

Lemma load_some (p : vptr) (v : Vector3) (h : heap) :
  heap_load p h = Some v -> load p h = Ok v h.
Proof. unfold load. by intros ->. Qed.

Lemma store_some (p : vptr) (v : Vector3) (h h' : heap) :
  heap_store p v h = Some h' -> store p v h = Ok tt h'.
Proof. unfold store. by intros ->. Qed.

Lemma heap_store_line_of (p : vptr) (v : Vector3) (h h' : heap) (a : positive) (ln : Line3) :
  heap_store p v h = Some h' ->
  heap_load_line (LObj a) h = Some ln ->
  heap_load_line (LObj a) h' =
    Some (mkLine3 (if decide (p = VStart a) then v else start ln)
                  (if decide (p = VEnd a) then v else end_ ln)).
Proof.
  intros Hs Hl. simpl in Hl.
  destruct p as [|b|l|l]; simpl in Hs; try discriminate.
  - destruct (vecs h !! b); simplify_eq. simpl. rewrite Hl. by destruct ln.
  - destruct (lines h !! l) as [ln'|] eqn:E; simplify_eq. simpl.
    destruct (decide (l = a)) as [->|Hne].
    + rewrite lookup_insert_eq. repeat case_decide; simplify_eq. done.
    + rewrite lookup_insert_ne by done. rewrite Hl.
      repeat case_decide; simplify_eq. by destruct ln.
  - destruct (lines h !! l) as [ln'|] eqn:E; simplify_eq. simpl.
    destruct (decide (l = a)) as [->|Hne].
    + rewrite lookup_insert_eq. repeat case_decide; simplify_eq. done.
    + rewrite lookup_insert_ne by done. rewrite Hl.
      repeat case_decide; simplify_eq. by destruct ln.
Qed.


Lemma vlive_start (a : positive) (ln : Line3) (h : heap) :
  heap_load_line (LObj a) h = Some ln -> vlive h (VStart a).
Proof. intros H. unfold vlive. rewrite (heap_load_line_start _ _ _ H). eauto. Qed.

Lemma vlive_end (a : positive) (ln : Line3) (h : heap) :
  heap_load_line (LObj a) h = Some ln -> vlive h (VEnd a).
Proof. intros H. unfold vlive. rewrite (heap_load_line_end _ _ _ H). eauto. Qed.

Lemma is_vnil_false (h : heap) (p : vptr) : vlive h p -> is_vnil p = false.
Proof. destruct p; [intros [? [=]] | done..]. Qed.

Lemma vlive_or_nil_cases (h : heap) (p : vptr) :
  vlive_or_nil h p ->
  (p = VNil /\ heap_load p h = None) \/
  (exists v, heap_load p h = Some v /\ is_vnil p = false).
Proof.
  intros [-> | Hl]; [by left | right].
  destruct Hl as [v Hv]. exists v. split; [done |]. apply (is_vnil_false h). by exists v.
Qed.

(** What [Set] does, whatever its arguments point to. *)
Lemma Line3_Set_run (h : heap) (a : positive) (s e : vptr) (A B : Vector3) :
  heap_load_line (LObj a) h = Some (mkLine3 A B) ->
  vlive_or_nil h s -> vlive_or_nil h e ->
  exists h',
    Line3_Set (LObj a) s e h = Ok (LObj a) h' /\
    heap_load_line (LObj a) h' =
      Some (mkLine3 (default A (heap_load s h))
                    (if decide (e = VStart a) then default A (heap_load s h)
                     else default B (heap_load e h))) /\
    vecs h' = vecs h /\
    (forall b, b <> a -> lines h' !! b = lines h !! b).
Proof.
  intros Hl Hs He. unfold Line3_Set, bind.
  assert (exists h1, (if is_vnil s then ret tt
                      else fun s0 => match load s s0 with
                                     | Ok v s' => match field_start (LObj a) s' with
                                                  | Ok p s'0 => store p v s'0
                                                  | Panic => Panic end
                                     | Panic => Panic end) h = Ok tt h1 /\
          heap_load_line (LObj a) h1 = Some (mkLine3 (default A (heap_load s h)) B) /\
          vecs h1 = vecs h /\
          (forall b, b <> a -> lines h1 !! b = lines h !! b) /\
          (forall q, q <> VStart a -> heap_load q h1 = heap_load q h)) as (h1 & R1 & L1 & V1 & F1 & O1).
  { destruct (vlive_or_nil_cases _ _ Hs) as [[-> Hn] | (S & HS & Hnn)].
    - exists h. simpl. done.
    - rewrite Hnn, (load_some _ _ _ HS). cbn [field_start ret].
      destruct (heap_store_live (VStart a) S h (vlive_start _ _ _ Hl)) as [h1 Hh1].
      exists h1. rewrite (store_some _ _ _ _ Hh1). split; [done |].
      rewrite HS. simpl default. split.
      + rewrite (heap_store_line_of _ _ _ _ _ _ Hh1 Hl).
        repeat case_decide; simplify_eq; done.
      + simpl in Hh1, Hl. rewrite Hl in Hh1. simplify_eq. simpl.
        split; [done |]. split.
        * intros b Hb. by rewrite lookup_insert_ne.
        * intros q Hq. destruct q as [|c|c|c]; simpl; try done.
          -- destruct (decide (a = c)) as [->|]; [done | by rewrite lookup_insert_ne].
          -- destruct (decide (a = c)) as [->|]; [| by rewrite lookup_insert_ne].
             by rewrite lookup_insert_eq, Hl. }
  rewrite R1.
  destruct (vlive_or_nil_cases _ _ He) as [[-> Hn] | (E & HE & Hnn)].
  - exists h1. rewrite decide_False by done. rewrite Hn. done.
  - rewrite Hnn.
    assert (heap_load e h1 = Some (if decide (e = VStart a) then default A (heap_load s h) else E)) as HE1.
    { case_decide as Hd.
      - subst e. by rewrite (heap_load_line_start _ _ _ L1).
      - by rewrite O1. }
    rewrite (load_some _ _ _ HE1). cbn [field_end ret].
    destruct (heap_store_live (VEnd a) (if decide (e = VStart a) then default A (heap_load s h) else E)
                h1 (vlive_end _ _ _ L1)) as [h2 Hh2].
    exists h2. rewrite (store_some _ _ _ _ Hh2). split; [done |].
    rewrite HE. simpl default. split.
    + rewrite (heap_store_line_of _ _ _ _ _ _ Hh2 L1).
      repeat case_decide; simplify_eq; done.
    + simpl in Hh2, L1. rewrite L1 in Hh2. simplify_eq. simpl.
      split; [done |]. intros b Hb. rewrite lookup_insert_ne by done. by apply F1.
Qed.

Lemma NewVector3_run (x y z : float32) (h : heap) :
  exists a h',
    NewVector3 x y z h = Ok (VObj a) h' /\
    ~ vlive h (VObj a) /\
    heap_load (VObj a) h' = Some (mkVector3 x y z) /\
    lines h' = lines h /\
    (forall q, q <> VObj a -> heap_load q h' = heap_load q h).
Proof.
  exists (fresh (dom (vecs h))), (mkHeap (<[fresh (dom (vecs h)) := mkVector3 x y z]> (vecs h)) (lines h)).
  assert (vecs h !! fresh (dom (vecs h)) = None) as Hf.
  { apply not_elem_of_dom. apply is_fresh. }
  split; [done |]. split; [| split; [| split]].
  - unfold vlive. simpl. rewrite Hf. by intros [? ?].
  - simpl. apply lookup_insert_eq.
  - done.
  - intros q Hq. destruct q as [|b|b|b]; simpl; try done.
    rewrite lookup_insert_ne; [done | congruence].
Qed.

(** A store through a live pointer [r], seen from a line [a]. *)
Lemma store_run (r : vptr) (v : Vector3) (h : heap) (a : positive) (ln : Line3) :
  vlive h r ->
  heap_load_line (LObj a) h = Some ln ->
  exists h',
    store r v h = Ok tt h' /\
    heap_load r h' = Some v /\
    heap_load_line (LObj a) h' =
      Some (mkLine3 (if decide (r = VStart a) then v else start ln)
                    (if decide (r = VEnd a) then v else end_ ln)) /\
    (forall q, q <> r -> heap_load q h' = heap_load q h).
Proof.
  intros Hr Hl. destruct (heap_store_live r v h Hr) as [h' Hh'].
  exists h'. rewrite (store_some _ _ _ _ Hh'). split; [done |].
  split; [apply (heap_load_store_same _ _ _ _ Hh') |].
  split; [apply (heap_store_line_of _ _ _ _ _ _ Hh' Hl) |].
  intros q Hq. apply (heap_load_store_other _ _ _ _ _ Hh' Hq).
Qed.

(** The choice of the result vector that opens [Center] and [Delta]: a
    new vector if the target is nil, the target otherwise. *)
Lemma optional_target_run (h : heap) (a : positive) (t : vptr) (ln : Line3) :
  heap_load_line (LObj a) h = Some ln ->
  vlive_or_nil h t ->
  exists r h0,
    (if is_vnil t then NewVector3 f32_zero f32_zero f32_zero else ret t) h = Ok r h0 /\
    vlive h0 r /\ (t = VNil -> ~ vlive h r) /\ (t <> VNil -> r = t) /\
    (t = VNil -> r <> VStart a /\ r <> VEnd a) /\
    heap_load_line (LObj a) h0 = Some ln.
Proof.
  intros Hl Ht.
  destruct (vlive_or_nil_cases _ _ Ht) as [[-> Hn] | (T & HT & Hnn)].
  - destruct (NewVector3_run f32_zero f32_zero f32_zero h) as (b & h0 & R & F & Lb & Ll & O).
    exists (VObj b), h0. simpl. split; [done |]. split; [by eexists |].
    split; [done |]. split; [done |]. split; [done |]. by rewrite Ll.
  - rewrite Hnn. exists t, h. split; [done |]. split; [by eexists |].
    split; [by intros -> |]. split; [done |]. split; [by intros -> |]. done.
Qed.

Lemma Line3_Center_run (h : heap) (a : positive) (t : vptr) (A B : Vector3) :
  heap_load_line (LObj a) h = Some (mkLine3 A B) ->
  vlive_or_nil h t ->
  exists r h',
    Line3_Center (LObj a) t h = Ok r h' /\
    heap_load r h' = Some (vec_scale (vec_add A B) f32_half) /\
    (t = VNil -> ~ vlive h r) /\
    (t <> VNil -> r = t) /\
    heap_load_line (LObj a) h' =
      Some (mkLine3 (if decide (t = VStart a) then vec_scale (vec_add A B) f32_half else A)
                    (if decide (t = VEnd a) then vec_scale (vec_add A B) f32_half else B)).
Proof.
  intros Hl Ht. unfold Line3_Center, bind.
  destruct (optional_target_run h a t _ Hl Ht) as (r & h0 & R0 & Lr & Fr & Er & Nr & L0).
  rewrite R0. cbn [field_start field_end ret]. unfold Vector3_AddVectors, Vector3_MultiplyScalar, bind.
  rewrite (load_some _ _ _ (heap_load_line_start _ _ _ L0)).
  rewrite (load_some _ _ _ (heap_load_line_end _ _ _ L0)). cbn [start end_].
  destruct (store_run r (vec_add A B) h0 a _ Lr L0) as (h1 & S1 & V1 & L1 & O1).
  rewrite S1. cbn [ret].
  rewrite (load_some _ _ _ V1).
  assert (vlive h1 r) as Lr1 by (by eexists).
  destruct (store_run r (vec_scale (vec_add A B) f32_half) h1 a _ Lr1 L1) as (h2 & S2 & V2 & L2 & O2).
  rewrite S2. exists r, h2. split; [done |]. split; [done |]. split; [done |]. split; [done |].
  rewrite L2. cbn [start end_].
  destruct (decide (t = VNil)) as [Hn | Hn].
  - destruct (Nr Hn) as [N1 N2]. subst t.
    repeat case_decide; simplify_eq; done.
  - rewrite <- (Er Hn). repeat case_decide; simplify_eq; done.
Qed.

Lemma Line3_Delta_run (h : heap) (a : positive) (t : vptr) (A B : Vector3) :
  heap_load_line (LObj a) h = Some (mkLine3 A B) ->
  vlive_or_nil h t ->
  exists r h',
    Line3_Delta (LObj a) t h = Ok r h' /\
    heap_load r h' = Some (vec_sub B A) /\
    (t = VNil -> ~ vlive h r) /\
    (t <> VNil -> r = t) /\
    heap_load_line (LObj a) h' =
      Some (mkLine3 (if decide (t = VStart a) then vec_sub B A else A)
                    (if decide (t = VEnd a) then vec_sub B A else B)).
Proof.
  intros Hl Ht. unfold Line3_Delta, bind.
  destruct (optional_target_run h a t _ Hl Ht) as (r & h0 & R0 & Lr & Fr & Er & Nr & L0).
  rewrite R0. cbn [field_start field_end ret]. unfold Vector3_SubVectors, bind.
  rewrite (load_some _ _ _ (heap_load_line_end _ _ _ L0)).
  rewrite (load_some _ _ _ (heap_load_line_start _ _ _ L0)). cbn [start end_].
  destruct (store_run r (vec_sub B A) h0 a _ Lr L0) as (h1 & S1 & V1 & L1 & O1).
  rewrite S1. cbn [ret].
  exists r, h1. split; [done |]. split; [done |]. split; [done |]. split; [done |].
  rewrite L1. cbn [start end_].
  destruct (decide (t = VNil)) as [Hn | Hn].
  - destruct (Nr Hn) as [N1 N2]. subst t.
    repeat case_decide; simplify_eq; done.
  - rewrite <- (Er Hn). repeat case_decide; simplify_eq; done.
Qed.

(** ** binary32 facts *)

Lemma f32_eqb_refl (x : float32) : f32_is_nan x = false -> f32_eqb x x = true.
Proof.
  destruct x as [s|s| |s m e]; simpl; try done.
  - by destruct s.
  - intros _. unfold f32_eqb, SFeqb, SFcompare.
    rewrite Z.compare_refl.
    replace (Pos.compare_cont Eq m m) with Eq by (symmetry; apply Pos.compare_cont_refl).
    by destruct s.
Qed.

Lemma f32_sub_diag (x : float32) : f32_is_finite x = true -> f32_sub x x = f32_zero.
Proof.
  destruct x as [s|s| |s m e]; simpl; try done.
  - by destruct s.
  - intros _. unfold f32_sub, SFsub.
    rewrite Z.min_id. unfold shl_align. rewrite Z.sub_diag. cbn [fst].
    reflexivity.
Qed.

Lemma f32_valid_finite (s : bool) (m : positive) (e : Z) :
  f32_valid (S754_finite s m e) = true ->
  fexp f32_prec f32_emax (Z.pos (digits2_pos m) + e) = e /\ (e <= f32_emax - f32_prec)%Z.
Proof.
  unfold f32_valid, valid_binary, bounded, canonical_mantissa.
  intros [H1 H2]%andb_prop. split; [by apply Z.eqb_eq | by apply Z.leb_le].
Qed.

Lemma digits2_pos_shift23 (m : positive) :
  Z.pos (digits2_pos (8388608 * m)) = (Z.pos (digits2_pos m) + 23)%Z.
Proof.
  change (8388608 * m)%positive with
    (m~0~0~0~0~0~0~0~0~0~0~0~0~0~0~0~0~0~0~0~0~0~0~0)%positive.
  cbn [digits2_pos]. lia.
Qed.

Lemma shr_shift23 (m : positive) :
  SpecFloat.iter_pos shr_1 23 (Build_shr_record (Z.pos (8388608 * m)) false false) =
  Build_shr_record (Z.pos m) false false.
Proof. reflexivity. Qed.

(** Rounding a product by [2^23 * 2^-23] gives the other factor back. *)
Lemma binary_round_aux_shift23 (s : bool) (m : positive) (e : Z) :
  f32_valid (S754_finite s m e) = true ->
  binary_round_aux f32_prec f32_emax s (Z.pos (8388608 * m)) (e + -23) loc_Exact =
  S754_finite s m e.
Proof.
  intros [Hc Hb]%f32_valid_finite.
  unfold binary_round_aux, shr_fexp. cbn [Zdigits2 shr_record_of_loc].
  rewrite digits2_pos_shift23.
  replace (Z.pos (digits2_pos m) + 23 + (e + -23))%Z with (Z.pos (digits2_pos m) + e)%Z by lia.
  rewrite Hc. replace (e - (e + -23))%Z with 23%Z by lia.
  cbn [shr]. rewrite shr_shift23. cbn [shr_m loc_of_shr_record round_nearest_even Zdigits2 shr_record_of_loc].
  replace (e + -23 + 23)%Z with e by lia.
  rewrite Hc, Z.sub_diag. cbn [shr shr_m].
  apply Z.leb_le in Hb. by rewrite Hb.
Qed.

Lemma f32_mul_one_l (x : float32) :
  f32_valid x = true -> f32_is_finite x = true -> f32_mul f32_one x = x.
Proof.
  destruct x as [s|s| |s m e]; try done.
  intros Hv _. unfold f32_mul, f32_one, SFmul. cbn [xorb].
  rewrite Z.add_comm. by apply binary_round_aux_shift23.
Qed.

Lemma f32_mul_one_r (x : float32) :
  f32_valid x = true -> f32_is_finite x = true -> f32_mul x f32_one = x.
Proof.
  destruct x as [s|s| |s m e]; try done.
  - by destruct s.
  - intros Hv _. unfold f32_mul, f32_one, SFmul. rewrite xorb_false_r.
    rewrite Pos.mul_comm. by apply binary_round_aux_shift23.
Qed.

Lemma f32_zero_or_finite (x : float32) :
  f32_is_finite x = true ->
  (exists s, x = S754_zero s) \/ (exists s m e, x = S754_finite s m e).
Proof. destruct x; try done; eauto. Qed.

(** [0 * x] is a zero for finite [x], and adding zeros to a finite
    non-zero number leaves it as it is. *)
Lemma f32_mul_zero_l (x : float32) :
  f32_is_finite x = true -> exists s, f32_mul f32_zero x = S754_zero s.
Proof. destruct x; try done; eauto. Qed.

Lemma f32_add_zero_r (s0 s : bool) (m : positive) (e : Z) :
  f32_add (S754_finite s m e) (S754_zero s0) = S754_finite s m e.
Proof. reflexivity. Qed.

Lemma f32_add_zero_l (s0 s : bool) (m : positive) (e : Z) :
  f32_add (S754_zero s0) (S754_finite s m e) = S754_finite s m e.
Proof. reflexivity. Qed.

Lemma f32_add_zeros (s t : bool) : exists r, f32_add (S754_zero s) (S754_zero t) = S754_zero r.
Proof. destruct s, t; eauto. Qed.

Lemma f32_eqb_zeros (s t : bool) : f32_eqb (S754_zero s) (S754_zero t) = true.
Proof. reflexivity. Qed.

Lemma f32_mul_zero_one (s : bool) : exists r, f32_mul (S754_zero s) f32_one = S754_zero r.
Proof. eauto. Qed.

Lemma identity_divisor (x y z : float32) :
  f32_is_finite x = true -> f32_is_finite y = true -> f32_is_finite z = true ->
  f32_div f32_one
    (f32_add (f32_add (f32_add (f32_mul f32_zero x) (f32_mul f32_zero y))
                      (f32_mul f32_zero z)) f32_one) = f32_one.
Proof.
  intros [sx Hx]%f32_mul_zero_l [sy Hy]%f32_mul_zero_l [sz Hz]%f32_mul_zero_l.
  rewrite Hx, Hy, Hz.
  destruct (f32_add_zeros sx sy) as [r1 ->].
  destruct (f32_add_zeros r1 sz) as [r2 ->].
  reflexivity.
Qed.

(** One row of the identity matrix applied to a point: the coordinate
    that meets the 1 comes out numerically unchanged. *)
Lemma identity_row (u a b c x : float32) :
  f32_valid x = true -> f32_is_finite x = true ->
  (exists s, u = S754_zero s) ->
  ((a = x /\ exists s t, b = S754_zero s /\ c = S754_zero t) \/
   (b = x /\ exists s t, a = S754_zero s /\ c = S754_zero t) \/
   (c = x /\ exists s t, a = S754_zero s /\ b = S754_zero t)) ->
  f32_eqb (f32_mul (f32_add (f32_add (f32_add a b) c) u) f32_one) x = true.
Proof.
  intros Hv Hf [su ->] Hc.
  destruct (f32_zero_or_finite x Hf) as [[sx ->] | (sx & mx & ex & ->)].
  - assert (exists s t w, a = S754_zero s /\ b = S754_zero t /\ c = S754_zero w)
      as (s & t & w & -> & -> & ->) by (destruct Hc as [[-> (s & t & -> & ->)] | [[-> (s & t & -> & ->)] | [-> (s & t & -> & ->)]]]; eauto 10).
    destruct (f32_add_zeros s t) as [r1 ->].
    destruct (f32_add_zeros r1 w) as [r2 ->].
    destruct (f32_add_zeros r2 su) as [r3 ->].
    destruct (f32_mul_zero_one r3) as [r4 ->].
    apply f32_eqb_zeros.
  - assert (f32_add (f32_add (f32_add a b) c) (S754_zero su) = S754_finite sx mx ex) as ->.
    { destruct Hc as [[-> (s & t & -> & ->)] | [[-> (s & t & -> & ->)] | [-> (s & t & -> & ->)]]].
      - by rewrite !f32_add_zero_r.
      - by rewrite f32_add_zero_l, !f32_add_zero_r.
      - destruct (f32_add_zeros s t) as [r ->]. by rewrite f32_add_zero_l, f32_add_zero_r. }
    rewrite f32_mul_one_r by done. by apply f32_eqb_refl.
Qed.

(** The identity matrix maps a point with finite coordinates to a point
    that compares equal to it. *)
Lemma vec_transform_identity (v : Vector3) :
  vec_valid v = true -> vec_finite v = true ->
  vec_eqb (vec_transform mat_identity v) v = true.
Proof.
  destruct v as [x y z]. unfold vec_valid, vec_finite, vec_eqb, vec_transform. cbn [vx vy vz].
  intros [[Vx Vy]%andb_prop Vz]%andb_prop [[Fx Fy]%andb_prop Fz]%andb_prop.
  cbn [mat_identity m0 m1 m2 m3 m4 m5 m6 m7 m8 m9 m10 m11 m12 m13 m14 m15].
  rewrite identity_divisor by done.
  destruct (f32_mul_zero_l x Fx) as [zx Hzx], (f32_mul_zero_l y Fy) as [zy Hzy],
           (f32_mul_zero_l z Fz) as [zz Hzz].
  rewrite !f32_mul_one_l by done. rewrite Hzx, Hzy, Hzz.
  rewrite !andb_true_iff. repeat split.
  - apply identity_row; eauto 10.
  - apply identity_row; eauto 10.
  - apply identity_row; eauto 10.
Qed.

Lemma vec_eqb_refl (v : Vector3) : vec_has_nan v = false -> vec_eqb v v = true.
Proof.
  destruct v as [x y z]. unfold vec_has_nan, vec_eqb. cbn [vx vy vz].
  intros [[Hx Hy]%orb_false_elim Hz]%orb_false_elim.
  by rewrite !f32_eqb_refl.
Qed.

Lemma vec_distance_sq_diag (v : Vector3) :
  vec_finite v = true -> vec_distance_sq v v = f32_zero.
Proof.
  destruct v as [x y z]. unfold vec_finite, vec_distance_sq. cbn [vx vy vz].
  intros [[Hx Hy]%andb_prop Hz]%andb_prop.
  by rewrite !f32_sub_diag.
Qed.

Lemma Line3_DistanceSq_run (h : heap) (a : positive) (A B : Vector3) :
  heap_load_line (LObj a) h = Some (mkLine3 A B) ->
  Line3_DistanceSq (LObj a) h = Ok (vec_distance_sq A B) h.
Proof.
  intros Hl. unfold Line3_DistanceSq, Vector3_DistanceToSquared, bind.
  cbn [field_start field_end ret].
  rewrite (load_some _ _ _ (heap_load_line_start _ _ _ Hl)).
  by rewrite (load_some _ _ _ (heap_load_line_end _ _ _ Hl)).
Qed.

Lemma Line3_Distance_run (h : heap) (a : positive) (A B : Vector3) :
  heap_load_line (LObj a) h = Some (mkLine3 A B) ->
  Line3_Distance (LObj a) h = Ok (f32_sqrt (vec_distance_sq A B)) h.
Proof.
  intros Hl. unfold Line3_Distance, Vector3_DistanceTo, Vector3_DistanceToSquared, bind.
  cbn [field_start field_end ret].
  rewrite (load_some _ _ _ (heap_load_line_start _ _ _ Hl)).
  by rewrite (load_some _ _ _ (heap_load_line_end _ _ _ Hl)).
Qed.

Lemma Line3_Equals_run (h : heap) (a b : positive) (A B C D : Vector3) :
  heap_load_line (LObj a) h = Some (mkLine3 A B) ->
  heap_load_line (LObj b) h = Some (mkLine3 C D) ->
  Line3_Equals (LObj a) (LObj b) h = Ok (vec_eqb C A && vec_eqb D B) h.
Proof.
  intros Ha Hb. unfold Line3_Equals, Vector3_Equals, bind.
  cbn [field_start field_end ret].
  rewrite (load_some _ _ _ (heap_load_line_start _ _ _ Hb)).
  rewrite (load_some _ _ _ (heap_load_line_start _ _ _ Ha)). cbn [start].
  destruct (vec_eqb C A); [| done]. cbn [field_start field_end ret].
  rewrite (load_some _ _ _ (heap_load_line_end _ _ _ Hb)).
  by rewrite (load_some _ _ _ (heap_load_line_end _ _ _ Ha)).
Qed.

Lemma Vector3_ApplyMatrix4_run (h : heap) (p : vptr) (m : Matrix4) (v : Vector3)
    (a : positive) (ln : Line3) :
  heap_load p h = Some v ->
  heap_load_line (LObj a) h = Some ln ->
  exists h',
    Vector3_ApplyMatrix4 p (MRef m) h = Ok p h' /\
    heap_load_line (LObj a) h' =
      Some (mkLine3 (if decide (p = VStart a) then vec_transform m v else start ln)
                    (if decide (p = VEnd a) then vec_transform m v else end_ ln)) /\
    (forall q, q <> p -> heap_load q h' = heap_load q h).
Proof.
  intros Hp Hl. unfold Vector3_ApplyMatrix4, bind.
  rewrite (load_some _ _ _ Hp). cbn [load_matrix ret].
  assert (vlive h p) as Lp by (by eexists).
  destruct (store_run p (vec_transform m v) h a ln Lp Hl) as (h' & S & V & L & O).
  rewrite S. by exists h'.
Qed.

Lemma Line3_ApplyMatrix4_run (h : heap) (a : positive) (m : Matrix4) (A B : Vector3) :
  heap_load_line (LObj a) h = Some (mkLine3 A B) ->
  exists h',
    Line3_ApplyMatrix4 (LObj a) (MRef m) h = Ok (LObj a) h' /\
    heap_load_line (LObj a) h' = Some (mkLine3 (vec_transform m A) (vec_transform m B)) /\
    (forall q, q <> VStart a -> q <> VEnd a -> heap_load q h' = heap_load q h).
Proof.
  intros Hl. unfold Line3_ApplyMatrix4, bind. cbn [field_start ret].
  destruct (Vector3_ApplyMatrix4_run h (VStart a) m A a _ (heap_load_line_start _ _ _ Hl) Hl)
    as (h1 & R1 & L1 & O1).
  rewrite R1. cbn [field_end ret].
  rewrite decide_True in L1 by done. rewrite decide_False in L1 by done. cbn [end_] in L1.
  destruct (Vector3_ApplyMatrix4_run h1 (VEnd a) m B a _ (heap_load_line_end _ _ _ L1) L1)
    as (h2 & R2 & L2 & O2).
  rewrite R2. exists h2. split; [done |].
  rewrite decide_False in L2 by done. rewrite decide_True in L2 by done. cbn [start] in L2.
  split; [done |]. intros q Hs He. by rewrite O2, O1.
Qed.

Lemma Line3_Copy_run (h : heap) (a b : positive) (la lb : Line3) :
  heap_load_line (LObj a) h = Some la ->
  heap_load_line (LObj b) h = Some lb ->
  exists h',
    Line3_Copy (LObj a) (LObj b) h = Ok (LObj a) h' /\
    heap_load_line (LObj a) h' = Some lb /\
    heap_load_line (LObj b) h' = Some lb /\
    vecs h' = vecs h /\
    (forall c, c <> a -> lines h' !! c = lines h !! c).
Proof.
  intros Ha Hb. unfold Line3_Copy, bind, load_line, store_line. rewrite Hb.
  simpl in *. rewrite Ha. eexists. split; [done |]. simpl.
  rewrite lookup_insert_eq. split; [done |]. split.
  - destruct (decide (a = b)) as [->|]; [by rewrite lookup_insert_eq | by rewrite lookup_insert_ne].
  - split; [done |]. intros c Hc. by rewrite lookup_insert_ne.
Qed.

Lemma new_line_run (h : heap) :
  exists a h',
    new_line h = Ok (LObj a) h' /\
    lines h !! a = None /\
    heap_load_line (LObj a) h' = Some line_zero /\
    vecs h' = vecs h /\
    (forall b, b <> a -> lines h' !! b = lines h !! b).
Proof.
  exists (fresh (dom (lines h))). eexists. split; [done |].
  assert (lines h !! fresh (dom (lines h)) = None) as Hf.
  { apply not_elem_of_dom. apply is_fresh. }
  split; [done |]. simpl. rewrite lookup_insert_eq. split; [done |]. split; [done |].
  intros b Hb. by rewrite lookup_insert_ne.
Qed.

(** Two heaps with the same vectors that agree on every line but [a]
    agree on every pointer that does not point into [a]. *)
Lemma heap_load_frame (h h' : heap) (a : positive) (q : vptr) :
  vecs h' = vecs h ->
  (forall b, b <> a -> lines h' !! b = lines h !! b) ->
  q <> VStart a -> q <> VEnd a ->
  heap_load q h' = heap_load q h.
Proof.
  intros Hv Hl Hs He. destruct q as [|c|c|c]; simpl; try done.
  - by rewrite Hv.
  - rewrite Hl; [done | congruence].
  - rewrite Hl; [done | congruence].
Qed.

Lemma vlive_not_fresh (h : heap) (a : positive) (q : vptr) :
  lines h !! a = None -> vlive_or_nil h q -> q <> VStart a /\ q <> VEnd a.
Proof.
  intros Hf [-> | [v Hv]]; [done |].
  split; intros ->; simpl in Hv; rewrite Hf in Hv; discriminate.
Qed.

Lemma NewLine3_run (h : heap) (s e : vptr) :
  vlive_or_nil h s -> vlive_or_nil h e ->
  exists a h',
    NewLine3 s e h = Ok (LObj a) h' /\
    lines h !! a = None /\
    heap_load_line (LObj a) h' =
      Some (mkLine3 (default vec_zero (heap_load s h)) (default vec_zero (heap_load e h))) /\
    vecs h' = vecs h /\
    (forall b, b <> a -> lines h' !! b = lines h !! b).
Proof.
  intros Hs He. unfold NewLine3, bind.
  destruct (new_line_run h) as (a & h0 & R0 & Hf & L0 & V0 & F0). rewrite R0.
  destruct (vlive_not_fresh h a s Hf Hs) as [Ns1 Ns2].
  destruct (vlive_not_fresh h a e Hf He) as [Ne1 Ne2].
  assert (heap_load s h0 = heap_load s h) as Es by (by apply (heap_load_frame h h0 a)).
  assert (heap_load e h0 = heap_load e h) as Ee by (by apply (heap_load_frame h h0 a)).
  assert (vlive_or_nil h0 s) as Hs0.
  { destruct Hs as [-> | Hs]; [by left | right]. unfold vlive. by rewrite Es. }
  assert (vlive_or_nil h0 e) as He0.
  { destruct He as [-> | He]; [by left | right]. unfold vlive. by rewrite Ee. }
  destruct (Line3_Set_run h0 a s e vec_zero vec_zero L0 Hs0 He0) as (h1 & R1 & L1 & V1 & F1).
  rewrite R1. exists a, h1. split; [done |]. split; [done |].
  rewrite decide_False in L1 by done. rewrite Es, Ee in L1.
  split; [done |]. split; [congruence |].
  intros b Hb. rewrite F1 by done. by apply F0.
Qed.

Lemma Line3_Clone_run (h : heap) (l : positive) (A B : Vector3) :
  heap_load_line (LObj l) h = Some (mkLine3 A B) ->
  exists a h',
    Line3_Clone (LObj l) h = Ok (LObj a) h' /\
    a <> l /\
    lines h !! a = None /\
    heap_load_line (LObj a) h' = Some (mkLine3 A B) /\
    heap_load_line (LObj l) h' = Some (mkLine3 A B) /\
    vecs h' = vecs h /\
    (forall b, b <> a -> lines h' !! b = lines h !! b).
Proof.
  intros Hl. unfold Line3_Clone, bind. cbn [field_start field_end ret].
  destruct (NewLine3_run h (VStart l) (VEnd l)) as (a & h' & R & Hf & L & V & F).
  { right. by eapply vlive_start. }
  { right. by eapply vlive_end. }
  rewrite R. exists a, h'.
  rewrite (heap_load_line_start _ _ _ Hl), (heap_load_line_end _ _ _ Hl) in L.
  assert (a <> l) as Hne by (intros ->; simpl in Hl; congruence).
  split; [done |]. split; [done |]. split; [done |]. split; [done |].
  split; [| done]. simpl. rewrite F by done. exact Hl.
Qed.

(** ** binary32 facts for values that are not finite, and for [==] *)

(** Two values that compare equal are two zeros, the same infinity, or
    one and the same finite number. *)
Lemma f32_eqb_true_cases (x y : float32) :
  f32_eqb x y = true ->
  (exists s t, x = S754_zero s /\ y = S754_zero t) \/
  (exists s, x = S754_infinity s /\ y = S754_infinity s) \/
  (exists s m e, x = S754_finite s m e /\ y = S754_finite s m e).
Proof.
  unfold f32_eqb, SFeqb, SFcompare.
  destruct x as [s|s| |s m e], y as [t|t| |t n e'];
    try destruct s; try destruct t; simpl; try discriminate; intros H;
    try (left; eauto; fail); try (right; left; eauto; fail);
    right; right; do 3 eexists; (split; [reflexivity |]);
    destruct (Z.compare e e') eqn:Ee; try discriminate;
    apply Z.compare_eq in Ee; subst e';
    destruct (Pos.compare_cont Eq m n) eqn:Em; try discriminate;
    apply Pos.compare_eq in Em; subst n; reflexivity.
Qed.

Lemma f32_eqb_nan_l (y : float32) : f32_eqb f32_nan y = false.
Proof. reflexivity. Qed.

Lemma f32_mul_nan_r (x : float32) : f32_mul x f32_nan = f32_nan.
Proof. by destruct x. Qed.

Lemma f32_add_nan_l (y : float32) : f32_add f32_nan y = f32_nan.
Proof. reflexivity. Qed.

Lemma f32_add_nan_r (x : float32) : f32_add x f32_nan = f32_nan.
Proof. by destruct x. Qed.

Lemma f32_mul_zero_nonfinite (x : float32) :
  f32_is_finite x = false -> f32_mul f32_zero x = f32_nan.
Proof. by destruct x. Qed.

(** The square of the difference of two coordinates that are identical
    or compare equal: +0 when they are finite, NaN otherwise. *)
Lemma f32_sq_diff_degenerate (x y : float32) :
  x = y \/ f32_eqb x y = true ->
  f32_mul (f32_sub x y) (f32_sub x y) =
  if f32_is_finite x then f32_zero else f32_nan.
Proof.
  assert (forall u, f32_mul (f32_sub u u) (f32_sub u u) =
                    if f32_is_finite u then f32_zero else f32_nan) as Hd.
  { intros u. destruct (f32_is_finite u) eqn:Hf.
    - by rewrite f32_sub_diag.
    - destruct u as [s|s| |s m e]; try discriminate; [by destruct s | done]. }
  intros [-> | He]; [apply Hd |].
  destruct (f32_eqb_true_cases x y He)
    as [(s & t & -> & ->) | [(s & -> & ->) | (s & m & e & -> & ->)]].
  - by destruct s, t.
  - apply Hd.
  - apply Hd.
Qed.

Lemma vec_degenerate_coords (A B : Vector3) :
  A = B \/ vec_eqb A B = true ->
  (vx A = vx B \/ f32_eqb (vx A) (vx B) = true) /\
  (vy A = vy B \/ f32_eqb (vy A) (vy B) = true) /\
  (vz A = vz B \/ f32_eqb (vz A) (vz B) = true).
Proof.
  intros [-> | He]; [by repeat split; left |].
  unfold vec_eqb in He. apply andb_prop in He as [He Hz]. apply andb_prop in He as [Hx Hy].
  by repeat split; right.
Qed.

(** The squared distance between two points that are identical or
    compare equal. *)
Lemma vec_distance_sq_degenerate (A B : Vector3) :
  A = B \/ vec_eqb A B = true ->
  vec_distance_sq A B = if vec_finite A then f32_zero else f32_nan.
Proof.
  intros H. destruct (vec_degenerate_coords A B H) as (Hx & Hy & Hz).
  unfold vec_distance_sq, vec_finite. cbv zeta.
  rewrite (f32_sq_diff_degenerate _ _ Hx), (f32_sq_diff_degenerate _ _ Hy),
          (f32_sq_diff_degenerate _ _ Hz).
  by destruct (f32_is_finite (vx A)), (f32_is_finite (vy A)), (f32_is_finite (vz A)).
Qed.

(** Under the identity matrix a point with a coordinate that is not
    finite comes out with every coordinate NaN: the fourth component,
    by which the other three are divided, is NaN already. *)
Lemma vec_transform_identity_nonfinite (v : Vector3) :
  vec_finite v = false -> vec_transform mat_identity v = ex_all_nan.
Proof.
  destruct v as [x y z]. unfold vec_finite, vec_transform. cbn [vx vy vz].
  cbn [mat_identity m0 m1 m2 m3 m4 m5 m6 m7 m8 m9 m10 m11 m12 m13 m14 m15].
  intros Hf.
  assert (f32_div f32_one
            (f32_add (f32_add (f32_add (f32_mul f32_zero x) (f32_mul f32_zero y))
                              (f32_mul f32_zero z)) f32_one) = f32_nan) as ->.
  { destruct (f32_is_finite x) eqn:Fx.
    - destruct (f32_is_finite y) eqn:Fy.
      + destruct (f32_is_finite z) eqn:Fz; [done |].
        rewrite (f32_mul_zero_nonfinite z Fz). by rewrite f32_add_nan_r.
      + rewrite (f32_mul_zero_nonfinite y Fy). by rewrite f32_add_nan_r.
    - by rewrite (f32_mul_zero_nonfinite x Fx). }
  by rewrite !f32_mul_nan_r.
Qed.

Lemma vec_eqb_all_nan_l (v : Vector3) : vec_eqb ex_all_nan v = false.
Proof. reflexivity. Qed.

(** A vector with a NaN coordinate does not compare equal to itself. *)
Lemma vec_eqb_nan (v : Vector3) : vec_has_nan v = true -> vec_eqb v v = false.
Proof.
  destruct v as [x y z]. unfold vec_has_nan, vec_eqb. cbn [vx vy vz].
  intros H. apply orb_prop in H as [H | Hz]; [apply orb_prop in H as [Hx | Hy] |].
  - destruct x; try discriminate. reflexivity.
  - destruct y; try discriminate. cbn [f32_eqb]. rewrite f32_eqb_nan_l.
    by rewrite andb_false_r.
  - destruct z; try discriminate. rewrite f32_eqb_nan_l. by rewrite andb_false_r.
Qed.

(** * The claims *)

(** ** C1: Set *)

(** C1, as first stated, fails when an argument points into the line
    itself, as the pointers returned by [Start()] and [End()] do.  On
    the line from (0,0,0) to (2,0,0), [l.Set(l.End(), l.Start())] is
    called with [*e] = (0,0,0), but the start endpoint is assigned
    first, so the end endpoint receives (2,0,0): the line ends up from
    (2,0,0) to (2,0,0), not from (2,0,0) to (0,0,0).  Reading [*s] and
    [*e] after the call instead does not save the statement:
    [l.Set(l.End(), v)] with [*v] = (2,0,1) leaves the start endpoint at
    (2,0,0) while [*s], the end endpoint, is (2,0,1) by then. *)
Lemma Line3_Set_swap_counterexample :
  Line3_End (LObj 1) ex_heap = Ok (VEnd 1) ex_heap /\
  Line3_Start (LObj 1) ex_heap = Ok (VStart 1) ex_heap /\
  heap_load (VEnd 1) ex_heap = Some ex_x2 /\
  heap_load (VStart 1) ex_heap = Some vec_zero /\
  (exists h',
     Line3_Set (LObj 1) (VEnd 1) (VStart 1) ex_heap = Ok (LObj 1) h' /\
     heap_load_line (LObj 1) h' = Some (mkLine3 ex_x2 ex_x2) /\
     mkLine3 ex_x2 ex_x2 <> mkLine3 ex_x2 vec_zero) /\
  (exists h',
     Line3_Set (LObj 1) (VEnd 1) (VObj 1) ex_heap = Ok (LObj 1) h' /\
     heap_load (VStart 1) h' = Some ex_x2 /\
     heap_load (VEnd 1) h' = Some ex_x2z1 /\
     ex_x2 <> ex_x2z1).
Proof.
  repeat (split; [reflexivity |]). split.
  - eexists. split; [reflexivity |]. split; [reflexivity |]. discriminate.
  - eexists. repeat (split; [reflexivity |]). discriminate.
Qed.

(** C1. For a line with endpoints (A, B) and arguments (s, e), each nil
    or a live pointer: [Set(s, e)] returns the line it was called on;
    afterwards the start endpoint is a copy of [*s] if [s] is non-nil and
    still A otherwise; the end endpoint is still B if [e] is nil, and
    otherwise a copy of [*e] as it stands once the start endpoint has
    been assigned: the value [*e] had at the call, unless [e] points to
    the line's own start endpoint, in which case it is the start
    endpoint just assigned.  [Set(nil, nil)] leaves the whole heap as it
    was. *)
Theorem Line3_Set_spec (h : heap) (a : positive) (s e : vptr) (A B : Vector3) :
  heap_load_line (LObj a) h = Some (mkLine3 A B) ->
  vlive_or_nil h s -> vlive_or_nil h e ->
  exists h',
    Line3_Set (LObj a) s e h = Ok (LObj a) h' /\
    heap_load (VStart a) h' = Some (default A (heap_load s h)) /\
    heap_load (VEnd a) h' =
      Some (if decide (e = VStart a) then default A (heap_load s h)
            else default B (heap_load e h)) /\
    (s = VNil -> heap_load (VStart a) h' = Some A) /\
    (e = VNil -> heap_load (VEnd a) h' = Some B) /\
    Line3_Set (LObj a) VNil VNil h = Ok (LObj a) h.
Proof.
  intros Hl Hs He.
  destruct (Line3_Set_run h a s e A B Hl Hs He) as (h' & R & L & _ & _).
  exists h'. split; [exact R |].
  rewrite (heap_load_line_start _ _ _ L), (heap_load_line_end _ _ _ L). cbn [start end_].
  split; [done |]. split; [done |]. split; [by intros -> |]. split; [| done].
  intros ->. by rewrite decide_False.
Qed.

Lemma Line3_Set_spec_witness :
  heap_load_line (LObj 1) ex_heap = Some (mkLine3 vec_zero ex_x2) /\
  vlive_or_nil ex_heap (VObj 1) /\ vlive_or_nil ex_heap VNil /\
  exists h',
    Line3_Set (LObj 1) (VObj 1) VNil ex_heap = Ok (LObj 1) h' /\
    heap_load (VStart 1) h' = Some ex_x2z1 /\
    heap_load (VEnd 1) h' = Some ex_x2.
Proof.
  assert (heap_load_line (LObj 1) ex_heap = Some (mkLine3 vec_zero ex_x2)) as Hl by reflexivity.
  assert (vlive_or_nil ex_heap (VObj 1)) as Hs by (right; eexists; reflexivity).
  assert (vlive_or_nil ex_heap VNil) as He by (left; reflexivity).
  split; [exact Hl |]. split; [exact Hs |]. split; [exact He |].
  destruct (Line3_Set_spec ex_heap 1 (VObj 1) VNil vec_zero ex_x2 Hl Hs He)
    as (h' & R & S & E & _).
  exists h'. split; [exact R |]. split; [exact S | exact E].
Defined.

(** ** C2: Center *)

(** C2, as first stated, fails when the target is one of the line's own
    endpoints: [l.Center(l.Start())] on the line from (0,0,0) to (2,0,0)
    writes the centre (1,0,0) into the start endpoint. *)
Lemma Line3_Center_alias_counterexample :
  Line3_Start (LObj 1) ex_heap = Ok (VStart 1) ex_heap /\
  heap_load (VStart 1) ex_heap = Some vec_zero /\
  exists h',
    Line3_Center (LObj 1) (VStart 1) ex_heap = Ok (VStart 1) h' /\
    heap_load (VStart 1) h' = Some ex_x1 /\
    ex_x1 <> vec_zero.
Proof.
  split; [reflexivity |]. split; [reflexivity |]. eexists. split; [reflexivity |]. split; [reflexivity |]. discriminate.
Qed.

(** C2. For a line with endpoints A and B and a target that is nil or a
    live pointer: [Center] returns a pointer to [(A + B) * 0.5]; with a
    nil target that pointer is to a vector that did not exist before the
    call, otherwise it is the target itself, which then holds the result;
    and the line's endpoints are as they were, provided the target is
    not a pointer to one of them (if it is, that endpoint holds the
    result). *)
Theorem Line3_Center_spec (h : heap) (a : positive) (t : vptr) (A B : Vector3) :
  heap_load_line (LObj a) h = Some (mkLine3 A B) ->
  vlive_or_nil h t ->
  exists r h',
    Line3_Center (LObj a) t h = Ok r h' /\
    heap_load r h' = Some (vec_scale (vec_add A B) f32_half) /\
    (t = VNil -> ~ vlive h r) /\
    (t <> VNil -> r = t) /\
    (t <> VStart a -> t <> VEnd a -> heap_load_line (LObj a) h' = Some (mkLine3 A B)) /\
    (t = VStart a ->
     heap_load_line (LObj a) h' = Some (mkLine3 (vec_scale (vec_add A B) f32_half) B)) /\
    (t = VEnd a ->
     heap_load_line (LObj a) h' = Some (mkLine3 A (vec_scale (vec_add A B) f32_half))).
Proof.
  intros Hl Ht.
  destruct (Line3_Center_run h a t A B Hl Ht) as (r & h' & R & V & F & E & L).
  exists r, h'. repeat (split; [done |]).
  rewrite L. repeat split.
  - intros N1 N2. by rewrite !decide_False.
  - intros ->. rewrite decide_True by done. by rewrite decide_False.
  - intros ->. rewrite decide_False by done. by rewrite decide_True.
Qed.

Lemma Line3_Center_spec_witness :
  heap_load_line (LObj 1) ex_heap = Some (mkLine3 vec_zero ex_x2) /\
  vlive_or_nil ex_heap VNil /\
  exists r h',
    Line3_Center (LObj 1) VNil ex_heap = Ok r h' /\
    heap_load r h' = Some ex_x1 /\
    heap_load_line (LObj 1) h' = Some (mkLine3 vec_zero ex_x2).
Proof.
  assert (heap_load_line (LObj 1) ex_heap = Some (mkLine3 vec_zero ex_x2)) as Hl by reflexivity.
  assert (vlive_or_nil ex_heap VNil) as Ht by (left; reflexivity).
  split; [exact Hl |]. split; [exact Ht |].
  destruct (Line3_Center_spec ex_heap 1 VNil vec_zero ex_x2 Hl Ht)
    as (r & h' & R & V & _ & _ & L & _).
  exists r, h'. split; [exact R |]. split; [exact V |].
  apply L; discriminate.
Defined.

(** ** C3: Delta *)

(** C3, as first stated, fails when the target is one of the line's own
    endpoints: [l.Delta(l.Start())] on the line from (0,0,0) to (2,0,0)
    writes the difference (2,0,0) into the start endpoint. *)
Lemma Line3_Delta_alias_counterexample :
  Line3_Start (LObj 1) ex_heap = Ok (VStart 1) ex_heap /\
  heap_load (VStart 1) ex_heap = Some vec_zero /\
  exists h',
    Line3_Delta (LObj 1) (VStart 1) ex_heap = Ok (VStart 1) h' /\
    heap_load (VStart 1) h' = Some ex_x2 /\
    ex_x2 <> vec_zero.
Proof.
  split; [reflexivity |]. split; [reflexivity |]. eexists. split; [reflexivity |]. split; [reflexivity |]. discriminate.
Qed.

(** C3. For a line with endpoints A and B and a target that is nil or a
    live pointer: [Delta] returns a pointer to [B - A]; with a nil target
    that pointer is to a vector that did not exist before the call,
    otherwise it is the target itself, which then holds the result; and
    the line's endpoints are as they were, provided the target is not a
    pointer to one of them (if it is, that endpoint holds the result). *)
Theorem Line3_Delta_spec (h : heap) (a : positive) (t : vptr) (A B : Vector3) :
  heap_load_line (LObj a) h = Some (mkLine3 A B) ->
  vlive_or_nil h t ->
  exists r h',
    Line3_Delta (LObj a) t h = Ok r h' /\
    heap_load r h' = Some (vec_sub B A) /\
    (t = VNil -> ~ vlive h r) /\
    (t <> VNil -> r = t) /\
    (t <> VStart a -> t <> VEnd a -> heap_load_line (LObj a) h' = Some (mkLine3 A B)) /\
    (t = VStart a -> heap_load_line (LObj a) h' = Some (mkLine3 (vec_sub B A) B)) /\
    (t = VEnd a -> heap_load_line (LObj a) h' = Some (mkLine3 A (vec_sub B A))).
Proof.
  intros Hl Ht.
  destruct (Line3_Delta_run h a t A B Hl Ht) as (r & h' & R & V & F & E & L).
  exists r, h'. repeat (split; [done |]).
  rewrite L. repeat split.
  - intros N1 N2. by rewrite !decide_False.
  - intros ->. rewrite decide_True by done. by rewrite decide_False.
  - intros ->. rewrite decide_False by done. by rewrite decide_True.
Qed.

Lemma Line3_Delta_spec_witness :
  heap_load_line (LObj 1) ex_heap = Some (mkLine3 vec_zero ex_x2) /\
  vlive_or_nil ex_heap (VObj 1) /\
  exists h',
    Line3_Delta (LObj 1) (VObj 1) ex_heap = Ok (VObj 1) h' /\
    heap_load (VObj 1) h' = Some ex_x2 /\
    heap_load_line (LObj 1) h' = Some (mkLine3 vec_zero ex_x2).
Proof.
  assert (heap_load_line (LObj 1) ex_heap = Some (mkLine3 vec_zero ex_x2)) as Hl by reflexivity.
  assert (vlive_or_nil ex_heap (VObj 1)) as Ht by (right; eexists; reflexivity).
  split; [exact Hl |]. split; [exact Ht |].
  destruct (Line3_Delta_spec ex_heap 1 (VObj 1) vec_zero ex_x2 Hl Ht)
    as (r & h' & R & V & _ & E & L & _).
  assert (r = VObj 1) as -> by (apply E; discriminate).
  exists h'. split; [exact R |]. split; [exact V |].
  apply L; discriminate.
Defined.

(** ** C4: Distance and DistanceSq *)

(** C4, as first stated, fails for a degenerate segment at an infinite
    point: on the line from (+Inf,0,0) to (+Inf,0,0) the difference of
    the first coordinates is not a number, and so is the distance. *)
Lemma Line3_Distance_degenerate_counterexample :
  heap_load_line (LObj 4) ex_heap = Some (mkLine3 ex_far ex_far) /\
  Line3_Distance (LObj 4) ex_heap = Ok f32_nan ex_heap /\
  f32_eqb f32_nan f32_zero = false.
Proof. split; [reflexivity |]. split; reflexivity. Qed.

(** C4. For a line with endpoints A and B, [Distance()] is the square
    root of [DistanceSq()], and neither changes the heap; a degenerate
    segment, one whose endpoints are identical or compare equal under
    [==] (so also from (0,0,0) to (-0,0,0)), has [Distance()] equal to 0
    when its coordinates are all finite, and equal to NaN when one of
    them is infinite or NaN. *)
Theorem Line3_Distance_spec (h : heap) (a : positive) (A B : Vector3) :
  heap_load_line (LObj a) h = Some (mkLine3 A B) ->
  exists d,
    Line3_DistanceSq (LObj a) h = Ok d h /\
    Line3_Distance (LObj a) h = Ok (f32_sqrt d) h /\
    (A = B -> vec_finite A = true -> Line3_Distance (LObj a) h = Ok f32_zero h) /\
    (vec_eqb A B = true -> vec_finite A = true ->
     Line3_Distance (LObj a) h = Ok f32_zero h) /\
    (A = B \/ vec_eqb A B = true -> vec_finite A = false ->
     Line3_Distance (LObj a) h = Ok f32_nan h).
Proof.
  intros Hl. exists (vec_distance_sq A B).
  split; [by apply Line3_DistanceSq_run |].
  split; [by apply Line3_Distance_run |].
  rewrite (Line3_Distance_run _ _ _ _ Hl).
  split; [| split].
  - intros HAB Hf. rewrite (vec_distance_sq_degenerate A B (or_introl HAB)). by rewrite Hf.
  - intros HAB Hf. rewrite (vec_distance_sq_degenerate A B (or_intror HAB)). by rewrite Hf.
  - intros HAB Hf. rewrite (vec_distance_sq_degenerate A B HAB). by rewrite Hf.
Qed.

Lemma Line3_Distance_spec_witness :
  heap_load_line (LObj 1) ex_heap = Some (mkLine3 vec_zero ex_x2) /\
  Line3_DistanceSq (LObj 1) ex_heap = Ok (f32_mul f32_two f32_two) ex_heap /\
  Line3_Distance (LObj 1) ex_heap = Ok f32_two ex_heap /\
  heap_load_line (LObj 4) ex_heap = Some (mkLine3 ex_far ex_far) /\
  Line3_Distance (LObj 4) ex_heap = Ok f32_nan ex_heap.
Proof.
  assert (heap_load_line (LObj 1) ex_heap = Some (mkLine3 vec_zero ex_x2)) as Hl by reflexivity.
  assert (heap_load_line (LObj 4) ex_heap = Some (mkLine3 ex_far ex_far)) as H4 by reflexivity.
  split; [exact Hl |].
  destruct (Line3_Distance_spec ex_heap 1 vec_zero ex_x2 Hl) as (d & Hsq & Hd & _).
  assert (d = f32_mul f32_two f32_two) as ->.
  { assert (Line3_DistanceSq (LObj 1) ex_heap = Ok (f32_mul f32_two f32_two) ex_heap) as E
      by reflexivity.
    rewrite E in Hsq. by injection Hsq. }
  split; [exact Hsq |]. split; [exact Hd |]. split; [exact H4 |].
  destruct (Line3_Distance_spec ex_heap 4 ex_far ex_far H4) as (d4 & _ & _ & _ & _ & Hn).
  apply Hn; [left |]; reflexivity.
Defined.

(** ** C5: Equals *)

(** C5. For lines [l] with endpoints (A, B) and [other] with endpoints
    (C, D), [l.Equals(other)] leaves the heap alone and returns true if
    and only if the vector type's equality holds between the two start
    endpoints and between the two end endpoints ([other.start.Equals(&l.start)]
    and [other.end.Equals(&l.end)]): nothing is added to it.  The line
    from (0,0,0) to (2,0,0) equals another such line and does not equal
    the line from (0,0,0) to (2,0,1). *)
Theorem Line3_Equals_spec :
  (forall (h : heap) (a b : positive) (A B C D : Vector3),
     heap_load_line (LObj a) h = Some (mkLine3 A B) ->
     heap_load_line (LObj b) h = Some (mkLine3 C D) ->
     exists r,
       Line3_Equals (LObj a) (LObj b) h = Ok r h /\
       (r = true <-> vec_eqb C A = true /\ vec_eqb D B = true)) /\
  Line3_Equals (LObj 1) (LObj 2) ex_heap = Ok true ex_heap /\
  Line3_Equals (LObj 1) (LObj 3) ex_heap = Ok false ex_heap.
Proof.
  split; [| split; reflexivity].
  intros h a b A B C D Ha Hb. exists (vec_eqb C A && vec_eqb D B).
  split; [by apply Line3_Equals_run |]. apply andb_true_iff.
Qed.

Lemma Line3_Equals_spec_witness :
  heap_load_line (LObj 1) ex_heap = Some (mkLine3 vec_zero ex_x2) /\
  heap_load_line (LObj 3) ex_heap = Some (mkLine3 vec_zero ex_x2z1) /\
  exists r,
    Line3_Equals (LObj 1) (LObj 3) ex_heap = Ok r ex_heap /\
    (r = true <-> vec_eqb vec_zero vec_zero = true /\ vec_eqb ex_x2z1 ex_x2 = true).
Proof.
  assert (heap_load_line (LObj 1) ex_heap = Some (mkLine3 vec_zero ex_x2)) as H1 by reflexivity.
  assert (heap_load_line (LObj 3) ex_heap = Some (mkLine3 vec_zero ex_x2z1)) as H3 by reflexivity.
  split; [exact H1 |]. split; [exact H3 |].
  exact (proj1 Line3_Equals_spec ex_heap 1%positive 3%positive _ _ _ _ H1 H3).
Defined.

(** ** C6: ApplyMatrix4 *)

(** C6, as first stated, fails for the identity matrix at an infinite
    point: a product of a zero of the matrix with +Inf is not a number,
    so both endpoints of the line from (+Inf,0,0) to (+Inf,0,0) have a
    NaN coordinate afterwards and no longer compare equal to (+Inf,0,0). *)
Lemma Line3_ApplyMatrix4_identity_counterexample :
  heap_load_line (LObj 4) ex_heap = Some (mkLine3 ex_far ex_far) /\
  exists h' S E,
    Line3_ApplyMatrix4 (LObj 4) (MRef mat_identity) ex_heap = Ok (LObj 4) h' /\
    heap_load_line (LObj 4) h' = Some (mkLine3 S E) /\
    vec_has_nan S = true /\ vec_eqb S ex_far = false /\
    vec_has_nan E = true /\ vec_eqb E ex_far = false.
Proof.
  split; [reflexivity |]. eexists. eexists. eexists.
  split; [reflexivity |]. split; [reflexivity |]. repeat split; reflexivity.
Qed.

(** C6. For a line with endpoints A and B and a non-nil matrix:
    [ApplyMatrix4] transforms the start endpoint in place, then the end
    endpoint in place, and returns the line it was called on; with the
    identity matrix, every endpoint whose coordinates are finite compares
    equal ([==] on each coordinate) to what it was, and every endpoint
    with an infinite or NaN coordinate comes out with a NaN coordinate
    and does not compare equal to what it was. *)
Theorem Line3_ApplyMatrix4_spec (h : heap) (a : positive) (m : Matrix4) (A B : Vector3) :
  heap_load_line (LObj a) h = Some (mkLine3 A B) ->
  exists h1 h2,
    Vector3_ApplyMatrix4 (VStart a) (MRef m) h = Ok (VStart a) h1 /\
    heap_load_line (LObj a) h1 = Some (mkLine3 (vec_transform m A) B) /\
    Vector3_ApplyMatrix4 (VEnd a) (MRef m) h1 = Ok (VEnd a) h2 /\
    heap_load_line (LObj a) h2 = Some (mkLine3 (vec_transform m A) (vec_transform m B)) /\
    Line3_ApplyMatrix4 (LObj a) (MRef m) h = Ok (LObj a) h2 /\
    (m = mat_identity -> vec_valid A = true -> vec_finite A = true ->
     vec_eqb (vec_transform m A) A = true) /\
    (m = mat_identity -> vec_valid B = true -> vec_finite B = true ->
     vec_eqb (vec_transform m B) B = true) /\
    (m = mat_identity -> vec_finite A = false ->
     vec_has_nan (vec_transform m A) = true /\ vec_eqb (vec_transform m A) A = false) /\
    (m = mat_identity -> vec_finite B = false ->
     vec_has_nan (vec_transform m B) = true /\ vec_eqb (vec_transform m B) B = false).
Proof.
  intros Hl.
  destruct (Vector3_ApplyMatrix4_run h (VStart a) m A a _ (heap_load_line_start _ _ _ Hl) Hl)
    as (h1 & R1 & L1 & O1).
  rewrite decide_True in L1 by done. rewrite decide_False in L1 by done. cbn [end_] in L1.
  destruct (Vector3_ApplyMatrix4_run h1 (VEnd a) m B a _ (heap_load_line_end _ _ _ L1) L1)
    as (h2 & R2 & L2 & O2).
  rewrite decide_False in L2 by done. rewrite decide_True in L2 by done. cbn [start] in L2.
  exists h1, h2. repeat (split; [done |]). split.
  - unfold Line3_ApplyMatrix4, bind. cbn [field_start field_end ret]. rewrite R1.
    cbn [field_end ret]. by rewrite R2.
  - split; [| split; [| split]].
    + intros -> Hv Hf. by apply vec_transform_identity.
    + intros -> Hv Hf. by apply vec_transform_identity.
    + intros -> Hf. rewrite (vec_transform_identity_nonfinite A Hf).
      split; [reflexivity | apply vec_eqb_all_nan_l].
    + intros -> Hf. rewrite (vec_transform_identity_nonfinite B Hf).
      split; [reflexivity | apply vec_eqb_all_nan_l].
Qed.

Lemma Line3_ApplyMatrix4_spec_witness :
  heap_load_line (LObj 3) ex_heap = Some (mkLine3 vec_zero ex_x2z1) /\
  exists h',
    Line3_ApplyMatrix4 (LObj 3) (MRef mat_identity) ex_heap = Ok (LObj 3) h' /\
    heap_load_line (LObj 3) h' =
      Some (mkLine3 (vec_transform mat_identity vec_zero) (vec_transform mat_identity ex_x2z1)) /\
    vec_eqb (vec_transform mat_identity ex_x2z1) ex_x2z1 = true.
Proof.
  assert (heap_load_line (LObj 3) ex_heap = Some (mkLine3 vec_zero ex_x2z1)) as Hl by reflexivity.
  split; [exact Hl |].
  destruct (Line3_ApplyMatrix4_spec ex_heap 3 mat_identity vec_zero ex_x2z1 Hl)
    as (h1 & h2 & _ & _ & _ & L & R & _ & I & _).
  exists h2. split; [exact R |]. split; [exact L |].
  apply I; reflexivity.
Defined.

(** ** C7: OperateOnVertices and ReadVertices *)

Lemma OperateOnVertices_stop {Σ : Type} (a : positive) (cb : callback Σ vptr)
    (w : world Σ) (h1 : heap) (σ1 : Σ) :
  cb (VStart a) (mem w, env w) = Ok true (h1, σ1) ->
  Line3_OperateOnVertices (LObj a) cb w =
    Ok tt (mkWorld h1 σ1 (calls w ++ [CallPtr (VStart a)])).
Proof.
  intros H1. unfold Line3_OperateOnVertices, bind, invoke. cbn [field_start ret].
  by rewrite H1.
Qed.

Lemma OperateOnVertices_go {Σ : Type} (a : positive) (cb : callback Σ vptr)
    (w : world Σ) (h1 h2 : heap) (σ1 σ2 : Σ) (b : bool) :
  cb (VStart a) (mem w, env w) = Ok false (h1, σ1) ->
  cb (VEnd a) (h1, σ1) = Ok b (h2, σ2) ->
  Line3_OperateOnVertices (LObj a) cb w =
    Ok tt (mkWorld h2 σ2 (calls w ++ [CallPtr (VStart a); CallPtr (VEnd a)])).
Proof.
  intros H1 H2. unfold Line3_OperateOnVertices, bind, invoke. cbn [field_start ret].
  rewrite H1. cbn [field_end ret mem env calls]. rewrite H2.
  rewrite <- app_assoc. by destruct b.
Qed.

Lemma ReadVertices_stop {Σ : Type} (a : positive) (cb : callback Σ Vector3)
    (w : world Σ) (A B : Vector3) (h1 : heap) (σ1 : Σ) :
  heap_load_line (LObj a) (mem w) = Some (mkLine3 A B) ->
  cb A (mem w, env w) = Ok true (h1, σ1) ->
  Line3_ReadVertices (LObj a) cb w = Ok tt (mkWorld h1 σ1 (calls w ++ [CallVal A])).
Proof.
  intros Hl H1. unfold Line3_ReadVertices, bind, invoke, in_mem. cbn [field_start ret].
  rewrite (load_some _ _ _ (heap_load_line_start _ _ _ Hl)). cbn [start mem env calls].
  by rewrite H1.
Qed.

Lemma ReadVertices_go {Σ : Type} (a : positive) (cb : callback Σ Vector3)
    (w : world Σ) (A B B1 : Vector3) (h1 h2 : heap) (σ1 σ2 : Σ) (b : bool) :
  heap_load_line (LObj a) (mem w) = Some (mkLine3 A B) ->
  cb A (mem w, env w) = Ok false (h1, σ1) ->
  heap_load (VEnd a) h1 = Some B1 ->
  cb B1 (h1, σ1) = Ok b (h2, σ2) ->
  Line3_ReadVertices (LObj a) cb w =
    Ok tt (mkWorld h2 σ2 (calls w ++ [CallVal A; CallVal B1])).
Proof.
  intros Hl H1 HB H2. unfold Line3_ReadVertices, bind, invoke, in_mem. cbn [field_start ret].
  rewrite (load_some _ _ _ (heap_load_line_start _ _ _ Hl)). cbn [start mem env calls].
  rewrite H1. cbn [field_end ret mem env calls].
  rewrite (load_some _ _ _ HB). cbn [mem env calls]. rewrite H2.
  rewrite <- app_assoc. by destruct b.
Qed.

Lemma edit_cb_run {Σ : Type} (f : Vector3 -> Σ -> bool * Vector3 * Σ) (p : vptr)
    (h : heap) (σ : Σ) (v : Vector3) (a : positive) (ln : Line3) :
  heap_load p h = Some v ->
  heap_load_line (LObj a) h = Some ln ->
  exists h',
    edit_cb f p (h, σ) = Ok (fst (fst (f v σ))) (h', snd (f v σ)) /\
    heap_load_line (LObj a) h' =
      Some (mkLine3 (if decide (p = VStart a) then snd (fst (f v σ)) else start ln)
                    (if decide (p = VEnd a) then snd (fst (f v σ)) else end_ ln)).
Proof.
  intros Hp Hl. unfold edit_cb. rewrite (load_some _ _ _ Hp).
  destruct (f v σ) as [[b v'] σ']. cbn [fst snd].
  assert (vlive h p) as Lp by (by eexists).
  destruct (store_run p v' h a ln Lp Hl) as (h' & S & _ & L & _).
  rewrite S. by exists h'.
Qed.

(** C7. [OperateOnVertices] calls the callback first with a pointer to
    the start endpoint and, only if that call returned false, once more
    with a pointer to the end endpoint: a callback that returns true on
    the first call is called exactly once, one that returns false is
    called exactly twice, start then end; what the callback wrote through
    the pointer is in the line afterwards; and the traversal returns
    nothing.  [ReadVertices] calls in the same order with the same stop
    rule, but passes the endpoints' values (the end endpoint as it stands
    after the first call), so a callback that works on what it is given
    leaves the heap, and with it the line, unchanged. *)
Theorem Line3_vertex_traversals_spec (Σ : Type) (a : positive) :
  (forall (cb : callback Σ vptr) (w : world Σ) (h1 : heap) (σ1 : Σ),
     cb (VStart a) (mem w, env w) = Ok true (h1, σ1) ->
     Line3_OperateOnVertices (LObj a) cb w =
       Ok tt (mkWorld h1 σ1 (calls w ++ [CallPtr (VStart a)]))) /\
  (forall (cb : callback Σ vptr) (w : world Σ) (h1 h2 : heap) (σ1 σ2 : Σ) (b : bool),
     cb (VStart a) (mem w, env w) = Ok false (h1, σ1) ->
     cb (VEnd a) (h1, σ1) = Ok b (h2, σ2) ->
     Line3_OperateOnVertices (LObj a) cb w =
       Ok tt (mkWorld h2 σ2 (calls w ++ [CallPtr (VStart a); CallPtr (VEnd a)]))) /\
  (forall (f : Vector3 -> Σ -> bool * Vector3 * Σ) (w : world Σ) (A B : Vector3),
     heap_load_line (LObj a) (mem w) = Some (mkLine3 A B) ->
     exists w',
       Line3_OperateOnVertices (LObj a) (edit_cb f) w = Ok tt w' /\
       match f A (env w) with
       | (true, A', σ1) =>
           heap_load_line (LObj a) (mem w') = Some (mkLine3 A' B) /\
           env w' = σ1 /\
           calls w' = calls w ++ [CallPtr (VStart a)]
       | (false, A', σ1) =>
           heap_load_line (LObj a) (mem w') = Some (mkLine3 A' (snd (fst (f B σ1)))) /\
           env w' = snd (f B σ1) /\
           calls w' = calls w ++ [CallPtr (VStart a); CallPtr (VEnd a)]
       end) /\
  (forall (cb : callback Σ Vector3) (w : world Σ) (A B : Vector3) (h1 : heap) (σ1 : Σ),
     heap_load_line (LObj a) (mem w) = Some (mkLine3 A B) ->
     cb A (mem w, env w) = Ok true (h1, σ1) ->
     Line3_ReadVertices (LObj a) cb w = Ok tt (mkWorld h1 σ1 (calls w ++ [CallVal A]))) /\
  (forall (cb : callback Σ Vector3) (w : world Σ) (A B B1 : Vector3) (h1 h2 : heap)
          (σ1 σ2 : Σ) (b : bool),
     heap_load_line (LObj a) (mem w) = Some (mkLine3 A B) ->
     cb A (mem w, env w) = Ok false (h1, σ1) ->
     heap_load (VEnd a) h1 = Some B1 ->
     cb B1 (h1, σ1) = Ok b (h2, σ2) ->
     Line3_ReadVertices (LObj a) cb w =
       Ok tt (mkWorld h2 σ2 (calls w ++ [CallVal A; CallVal B1]))) /\
  (forall (f : Vector3 -> Σ -> bool * Σ) (w : world Σ) (A B : Vector3),
     heap_load_line (LObj a) (mem w) = Some (mkLine3 A B) ->
     exists w',
       Line3_ReadVertices (LObj a) (value_cb f) w = Ok tt w' /\
       mem w' = mem w /\
       calls w' = calls w ++ (if fst (f A (env w)) then [CallVal A]
                              else [CallVal A; CallVal B])).
Proof.
  split; [intros; by apply OperateOnVertices_stop |].
  split; [intros; by eapply OperateOnVertices_go |].
  split; [| split; [intros; by eapply ReadVertices_stop |
                    split; [intros; by eapply ReadVertices_go |]]].
  - intros f w A B Hl.
    destruct (edit_cb_run f (VStart a) (mem w) (env w) A a _
                (heap_load_line_start _ _ _ Hl) Hl) as (h1 & R1 & L1).
    rewrite decide_True in L1 by done. rewrite decide_False in L1 by done. cbn [end_] in L1.
    destruct (f A (env w)) as [[b1 A'] σ1] eqn:E1. cbn [fst snd] in R1, L1.
    destruct b1.
    + eexists. split; [by apply OperateOnVertices_stop |]. done.
    + destruct (edit_cb_run f (VEnd a) h1 σ1 B a _ (heap_load_line_end _ _ _ L1) L1)
        as (h2 & R2 & L2).
      rewrite decide_False in L2 by done. rewrite decide_True in L2 by done. cbn [start] in L2.
      eexists. split; [by eapply OperateOnVertices_go |]. done.
  - intros f w A B Hl.
    destruct (f A (env w)) as [b1 σ1] eqn:E1. cbn [fst]. destruct b1.
    + eexists. split.
      { eapply ReadVertices_stop; [exact Hl |]. unfold value_cb. by rewrite E1. }
      done.
    + destruct (f B σ1) as [b2 σ2] eqn:E2.
      eexists. split.
      { eapply ReadVertices_go; [exact Hl | | exact (heap_load_line_end _ _ _ Hl) |].
        - unfold value_cb. by rewrite E1.
        - unfold value_cb. cbn [end_]. by rewrite E2. }
      done.
Qed.

Lemma Line3_vertex_traversals_spec_witness :
  Line3_OperateOnVertices (LObj 1) ex_cb_stop (mkWorld ex_heap 0 []) =
    Ok tt (mkWorld ex_heap 1 [CallPtr (VStart 1)]) /\
  Line3_OperateOnVertices (LObj 1) ex_cb_go (mkWorld ex_heap 0 []) =
    Ok tt (mkWorld ex_heap 2 [CallPtr (VStart 1); CallPtr (VEnd 1)]) /\
  Line3_ReadVertices (LObj 1) ex_cb_go (mkWorld ex_heap 0 []) =
    Ok tt (mkWorld ex_heap 2 [CallVal vec_zero; CallVal ex_x2]).
Proof.
  destruct (Line3_vertex_traversals_spec nat 1) as (S1 & S2 & _ & _ & S5 & _).
  split; [| split].
  - apply (S1 ex_cb_stop (mkWorld ex_heap 0 [])). reflexivity.
  - apply (S2 ex_cb_go (mkWorld ex_heap 0 []) ex_heap ex_heap 1 2 false); reflexivity.
  - apply (S5 ex_cb_go (mkWorld ex_heap 0 []) vec_zero ex_x2 ex_x2 ex_heap ex_heap 1 2 false);
      reflexivity.
Defined.

(** ** C8: Clone *)

(** C8, as first stated, fails for a line with a coordinate that is not
    a number: the clone of the line from (NaN,0,0) to (NaN,0,0) has the
    same endpoints, yet [Equals] between clone and original is false,
    because NaN differs from itself under [==]. *)
Lemma Line3_Clone_nan_counterexample :
  heap_load_line (LObj 5) ex_heap = Some (mkLine3 ex_undef ex_undef) /\
  exists c h',
    Line3_Clone (LObj 5) ex_heap = Ok c h' /\
    heap_load_line c h' = Some (mkLine3 ex_undef ex_undef) /\
    Line3_Equals c (LObj 5) h' = Ok false h' /\
    Line3_Equals (LObj 5) c h' = Ok false h'.
Proof.
  split; [reflexivity |]. eexists. eexists.
  split; [reflexivity |]. split; [reflexivity |]. split; reflexivity.
Qed.

(** C8. For a line with endpoints A and B, [Clone()] returns a line that
    did not exist before the call, with endpoints A and B, and leaves the
    original as it was; [Equals] between clone and original is true
    whenever no coordinate of A or B is NaN, and false, as it is between
    the line and itself, whenever one is; a write through a pointer to
    an endpoint of the clone leaves the original's endpoints as they
    were, and a write through a pointer to an endpoint of the original
    leaves the clone's. *)
Theorem Line3_Clone_spec (h : heap) (l : positive) (A B : Vector3) :
  heap_load_line (LObj l) h = Some (mkLine3 A B) ->
  exists c h',
    Line3_Clone (LObj l) h = Ok (LObj c) h' /\
    c <> l /\
    ~ llive h (LObj c) /\
    heap_load_line (LObj c) h' = Some (mkLine3 A B) /\
    heap_load_line (LObj l) h' = Some (mkLine3 A B) /\
    (vec_has_nan A = false -> vec_has_nan B = false ->
     Line3_Equals (LObj c) (LObj l) h' = Ok true h' /\
     Line3_Equals (LObj l) (LObj c) h' = Ok true h') /\
    (vec_has_nan A = true \/ vec_has_nan B = true ->
     Line3_Equals (LObj c) (LObj l) h' = Ok false h' /\
     Line3_Equals (LObj l) (LObj c) h' = Ok false h' /\
     Line3_Equals (LObj l) (LObj l) h' = Ok false h') /\
    (forall (p : vptr) (v : Vector3) (h'' : heap),
       p = VStart c \/ p = VEnd c ->
       heap_store p v h' = Some h'' ->
       heap_load_line (LObj l) h'' = Some (mkLine3 A B)) /\
    (forall (p : vptr) (v : Vector3) (h'' : heap),
       p = VStart l \/ p = VEnd l ->
       heap_store p v h' = Some h'' ->
       heap_load_line (LObj c) h'' = Some (mkLine3 A B)).
Proof.
  intros Hl.
  destruct (Line3_Clone_run h l A B Hl) as (c & h' & R & Hne & Hf & Lc & Ll & _ & _).
  exists c, h'. split; [done |]. split; [done |]. split.
  { unfold llive. simpl. rewrite Hf. by intros [? ?]. }
  split; [done |]. split; [done |]. split; [| split; [| split]].
  - intros NA NB.
    rewrite (Line3_Equals_run h' c l A B A B Lc Ll).
    rewrite (Line3_Equals_run h' l c A B A B Ll Lc).
    by rewrite !vec_eqb_refl.
  - intros HN.
    rewrite (Line3_Equals_run h' c l A B A B Lc Ll).
    rewrite (Line3_Equals_run h' l c A B A B Ll Lc).
    rewrite (Line3_Equals_run h' l l A B A B Ll Ll).
    assert (vec_eqb A A && vec_eqb B B = false) as ->; [| done].
    destruct HN as [HA | HB].
    + by rewrite (vec_eqb_nan A HA).
    + rewrite (vec_eqb_nan B HB). apply andb_false_r.
  - intros p v h'' Hp Hs. rewrite (heap_store_line_of _ _ _ _ _ _ Hs Ll). cbn [start end_].
    destruct Hp as [-> | ->]; rewrite !decide_False by congruence; done.
  - intros p v h'' Hp Hs. rewrite (heap_store_line_of _ _ _ _ _ _ Hs Lc). cbn [start end_].
    destruct Hp as [-> | ->]; rewrite !decide_False by congruence; done.
Qed.

Lemma Line3_Clone_spec_witness :
  heap_load_line (LObj 1) ex_heap = Some (mkLine3 vec_zero ex_x2) /\
  exists c h',
    Line3_Clone (LObj 1) ex_heap = Ok (LObj c) h' /\
    heap_load_line (LObj c) h' = Some (mkLine3 vec_zero ex_x2) /\
    Line3_Equals (LObj c) (LObj 1) h' = Ok true h'.
Proof.
  assert (heap_load_line (LObj 1) ex_heap = Some (mkLine3 vec_zero ex_x2)) as Hl by reflexivity.
  split; [exact Hl |].
  destruct (Line3_Clone_spec ex_heap 1 vec_zero ex_x2 Hl)
    as (c & h' & R & _ & _ & Lc & _ & E & _).
  exists c, h'. split; [exact R |]. split; [exact Lc |].
  apply E; reflexivity.
Defined.

(** ** C9: NewLine3 *)

(** C9. [NewLine3(s, e)], with each argument nil or a live pointer,
    never panics and returns a line that did not exist before the call;
    its start endpoint is (0,0,0) if [s] is nil and a copy of [*s]
    otherwise, and likewise its end endpoint for [e]; a later write
    through any pointer that existed before the call, the arguments
    among them, does not change the new line. *)
Theorem NewLine3_spec (h : heap) (s e : vptr) :
  vlive_or_nil h s -> vlive_or_nil h e ->
  exists a h',
    NewLine3 s e h = Ok (LObj a) h' /\
    ~ llive h (LObj a) /\
    heap_load_line (LObj a) h' =
      Some (mkLine3 (default vec_zero (heap_load s h)) (default vec_zero (heap_load e h))) /\
    (s = VNil -> heap_load (VStart a) h' = Some vec_zero) /\
    (e = VNil -> heap_load (VEnd a) h' = Some vec_zero) /\
    (forall (p : vptr) (v : Vector3) (h'' : heap),
       vlive h p ->
       heap_store p v h' = Some h'' ->
       heap_load_line (LObj a) h'' = heap_load_line (LObj a) h').
Proof.
  intros Hs He.
  destruct (NewLine3_run h s e Hs He) as (a & h' & R & Hf & L & _ & _).
  exists a, h'. split; [done |]. split.
  { unfold llive. simpl. rewrite Hf. by intros [? ?]. }
  split; [done |]. split; [| split].
  - intros ->. by rewrite (heap_load_line_start _ _ _ L).
  - intros ->. by rewrite (heap_load_line_end _ _ _ L).
  - intros p v h'' Hp Hst.
    destruct (vlive_not_fresh h a p Hf (or_intror Hp)) as [N1 N2].
    rewrite (heap_store_line_of _ _ _ _ _ _ Hst L), L. cbn [start end_].
    by rewrite !decide_False.
Qed.

Lemma NewLine3_spec_witness :
  vlive_or_nil ex_heap (VObj 1) /\ vlive_or_nil ex_heap VNil /\
  exists a h',
    NewLine3 (VObj 1) VNil ex_heap = Ok (LObj a) h' /\
    heap_load_line (LObj a) h' = Some (mkLine3 ex_x2z1 vec_zero).
Proof.
  assert (vlive_or_nil ex_heap (VObj 1)) as Hs by (right; eexists; reflexivity).
  assert (vlive_or_nil ex_heap VNil) as He by (left; reflexivity).
  split; [exact Hs |]. split; [exact He |].
  destruct (NewLine3_spec ex_heap (VObj 1) VNil Hs He) as (a & h' & R & _ & L & _).
  exists a, h'. split; [exact R | exact L].
Defined.

(** ** C10: Copy and Equals need a non-nil argument *)

(** C10. [l.Copy(nil)] and [l.Equals(nil)] panic, whereas [Set(nil, nil)]
    and [NewLine3(nil, nil)] return normally; when [other] is a live
    line, [l.Copy(other)] does not panic, returns [l], leaves [l] with
    the endpoints of [other], and leaves [other], every other line and
    every vector object as they were. *)
Theorem Line3_Copy_Equals_nil_spec :
  (forall (l : lptr) (h : heap), Line3_Copy l LNil h = Panic) /\
  (forall (l : lptr) (h : heap), Line3_Equals l LNil h = Panic) /\
  (forall (l : lptr) (h : heap), Line3_Set l VNil VNil h = Ok l h) /\
  (forall (h : heap), exists a h', NewLine3 VNil VNil h = Ok (LObj a) h') /\
  (forall (h : heap) (a b : positive) (la lb : Line3),
     heap_load_line (LObj a) h = Some la ->
     heap_load_line (LObj b) h = Some lb ->
     exists h',
       Line3_Copy (LObj a) (LObj b) h = Ok (LObj a) h' /\
       heap_load_line (LObj a) h' = Some lb /\
       heap_load_line (LObj b) h' = Some lb /\
       vecs h' = vecs h /\
       (forall c, c <> a -> lines h' !! c = lines h !! c)).
Proof.
  split; [done |]. split; [done |]. split; [done |]. split.
  - intros h. eexists. eexists. reflexivity.
  - intros h a b la lb Ha Hb. exact (Line3_Copy_run h a b la lb Ha Hb).
Qed.

Lemma Line3_Copy_Equals_nil_spec_witness :
  heap_load_line (LObj 1) ex_heap = Some (mkLine3 vec_zero ex_x2) /\
  heap_load_line (LObj 3) ex_heap = Some (mkLine3 vec_zero ex_x2z1) /\
  Line3_Copy (LObj 1) LNil ex_heap = Panic /\
  Line3_Equals (LObj 1) LNil ex_heap = Panic /\
  exists h',
    Line3_Copy (LObj 1) (LObj 3) ex_heap = Ok (LObj 1) h' /\
    heap_load_line (LObj 1) h' = Some (mkLine3 vec_zero ex_x2z1).
Proof.
  assert (heap_load_line (LObj 1) ex_heap = Some (mkLine3 vec_zero ex_x2)) as H1 by reflexivity.
  assert (heap_load_line (LObj 3) ex_heap = Some (mkLine3 vec_zero ex_x2z1)) as H3 by reflexivity.
  destruct Line3_Copy_Equals_nil_spec as (P1 & P2 & _ & _ & C).
  split; [exact H1 |]. split; [exact H3 |].
  split; [apply P1 |]. split; [apply P2 |].
  destruct (C ex_heap 1%positive 3%positive _ _ H1 H3) as (h' & R & L & _).
  exists h'. split; [exact R | exact L].
Defined.

(** * Further properties of the Line3 methods *)

(** ** Shared facts *)

Lemma heap_ext (h1 h2 : heap) :
  vecs h1 = vecs h2 -> (forall b, lines h1 !! b = lines h2 !! b) -> h1 = h2.
Proof.
  destruct h1 as [v1 l1], h2 as [v2 l2]. simpl. intros -> Hl.
  f_equal. by apply map_eq.
Qed.

(** A heap is determined by its vector objects, what one line holds and
    what all other lines hold. *)
Lemma heap_determined (h h1 h2 : heap) (a : positive) (ln : Line3) :
  vecs h1 = vecs h -> vecs h2 = vecs h ->
  heap_load_line (LObj a) h1 = Some ln -> heap_load_line (LObj a) h2 = Some ln ->
  (forall b, b <> a -> lines h1 !! b = lines h !! b) ->
  (forall b, b <> a -> lines h2 !! b = lines h !! b) ->
  h1 = h2.
Proof.
  intros V1 V2 L1 L2 F1 F2. apply heap_ext; [congruence |].
  intros b. destruct (decide (b = a)) as [-> | Hne].
  - simpl in L1, L2. congruence.
  - by rewrite F1, F2.
Qed.

Lemma Line3_Copy_as_Set (h : heap) (a b : positive) (la lb : Line3) :
  heap_load_line (LObj a) h = Some la ->
  heap_load_line (LObj b) h = Some lb ->
  Line3_Copy (LObj a) (LObj b) h = Line3_Set (LObj a) (VStart b) (VEnd b) h.
Proof.
  intros Ha Hb.
  destruct (Line3_Copy_run h a b la lb Ha Hb) as (h1 & R1 & L1 & _ & V1 & F1).
  destruct la as [A B].
  destruct (Line3_Set_run h a (VStart b) (VEnd b) A B Ha
              (or_intror (vlive_start _ _ _ Hb)) (or_intror (vlive_end _ _ _ Hb)))
    as (h2 & R2 & L2 & V2 & F2).
  rewrite R1, R2. f_equal.
  rewrite decide_False in L2 by done.
  rewrite (heap_load_line_start _ _ _ Hb), (heap_load_line_end _ _ _ Hb) in L2.
  simpl default in L2. destruct lb as [C D]. cbn [start end_] in L2.
  by apply (heap_determined h h1 h2 a (mkLine3 C D)).
Qed.

Lemma vlive_or_nil_frame (h h' : heap) (a : positive) (q : vptr) :
  vecs h' = vecs h ->
  (forall b, b <> a -> lines h' !! b = lines h !! b) ->
  lines h !! a = None ->
  vlive_or_nil h q ->
  vlive_or_nil h' q /\ heap_load q h' = heap_load q h.
Proof.
  intros V F Hf Hq.
  destruct (vlive_not_fresh h a q Hf Hq) as [N1 N2].
  assert (heap_load q h' = heap_load q h) as E by (by apply (heap_load_frame h h' a)).
  split; [| done].
  destruct Hq as [-> | Hq]; [by left | right]. unfold vlive. by rewrite E.
Qed.

Lemma heap_store_same_value (p : vptr) (v : Vector3) (h h' : heap) :
  heap_load p h = Some v -> heap_store p v h = Some h' -> h' = h.
Proof.
  destruct p as [|a|l|l]; simpl; try discriminate.
  - intros Hv. rewrite Hv. intros [= <-]. destruct h as [vs ls]. simpl in *.
    f_equal. by apply insert_id.
  - destruct (lines h !! l) as [[A B]|] eqn:E; simpl; [| discriminate].
    intros [= ->] [= <-]. destruct h as [vs ls]. simpl in *.
    f_equal. by apply insert_id.
  - destruct (lines h !! l) as [[A B]|] eqn:E; simpl; [| discriminate].
    intros [= ->] [= <-]. destruct h as [vs ls]. simpl in *.
    f_equal. by apply insert_id.
Qed.

(** ** X1: Start and End hand out the endpoints themselves *)

(** X1. For a line with endpoints (A, B), [Start()] and [End()] leave the
    heap alone and return two different non-nil pointers through which
    A and B are read; a write of [v] through the pointer from [Start()]
    makes the line (v, B), a write through the pointer from [End()]
    makes it (A, v), and neither changes a vector object or another
    line. *)
Theorem Line3_Start_End_write_through (h : heap) (a : positive) (A B v : Vector3) :
  heap_load_line (LObj a) h = Some (mkLine3 A B) ->
  exists p q,
    Line3_Start (LObj a) h = Ok p h /\
    Line3_End (LObj a) h = Ok q h /\
    p <> q /\ p <> VNil /\ q <> VNil /\
    load p h = Ok A h /\
    load q h = Ok B h /\
    (exists h1,
       store p v h = Ok tt h1 /\
       heap_load_line (LObj a) h1 = Some (mkLine3 v B) /\
       vecs h1 = vecs h /\
       (forall b, b <> a -> lines h1 !! b = lines h !! b)) /\
    (exists h2,
       store q v h = Ok tt h2 /\
       heap_load_line (LObj a) h2 = Some (mkLine3 A v) /\
       vecs h2 = vecs h /\
       (forall b, b <> a -> lines h2 !! b = lines h !! b)).
Proof.
  intros Hl. exists (VStart a), (VEnd a).
  split; [done |]. split; [done |]. split; [done |]. split; [done |]. split; [done |].
  split; [exact (load_some _ _ _ (heap_load_line_start _ _ _ Hl)) |].
  split; [exact (load_some _ _ _ (heap_load_line_end _ _ _ Hl)) |].
  simpl in Hl. unfold store. simpl. rewrite Hl. split.
  - eexists. split; [done |]. simpl. rewrite lookup_insert_eq.
    split; [done |]. split; [done |]. intros b Hb. by rewrite lookup_insert_ne.
  - eexists. split; [done |]. simpl. rewrite lookup_insert_eq.
    split; [done |]. split; [done |]. intros b Hb. by rewrite lookup_insert_ne.
Qed.

Lemma Line3_Start_End_write_through_witness :
  heap_load_line (LObj 1) ex_heap = Some (mkLine3 vec_zero ex_x2) /\
  exists p h1,
    Line3_Start (LObj 1) ex_heap = Ok p ex_heap /\
    store p ex_x1 ex_heap = Ok tt h1 /\
    heap_load_line (LObj 1) h1 = Some (mkLine3 ex_x1 ex_x2).
Proof.
  assert (heap_load_line (LObj 1) ex_heap = Some (mkLine3 vec_zero ex_x2)) as Hl by reflexivity.
  split; [exact Hl |].
  destruct (Line3_Start_End_write_through ex_heap 1 vec_zero ex_x2 ex_x1 Hl)
    as (p & q & RS & _ & _ & _ & _ & _ & _ & (h1 & S1 & L1 & _) & _).
  exists p, h1. split; [exact RS |]. split; [exact S1 | exact L1].
Defined.

(** ** X2, X3: methods called on a nil line *)

(** X2. On a nil receiver, [Set(nil, nil)] returns nil and touches
    nothing; with any non-nil argument it panics. *)
Theorem Line3_Set_nil_receiver :
  (forall h : heap, Line3_Set LNil VNil VNil h = Ok LNil h) /\
  (forall (h : heap) (s e : vptr),
     s <> VNil \/ e <> VNil -> Line3_Set LNil s e h = Panic).
Proof.
  split; [done |]. intros h s e Hne. unfold Line3_Set, bind.
  destruct s as [|x|x|x]; cbn [is_vnil].
  - destruct Hne as [Hne | Hne]; [done |].
    destruct e as [|y|y|y]; [done | | |]; cbn [is_vnil ret]; by destruct (load _ h).
  - by destruct (load _ h).
  - by destruct (load _ h).
  - by destruct (load _ h).
Qed.

Lemma Line3_Set_nil_receiver_witness :
  (VObj 1 <> VNil \/ VNil <> VNil) /\
  Line3_Set LNil (VObj 1) VNil ex_heap = Panic.
Proof.
  assert (VObj 1 <> VNil \/ VNil <> VNil) as H by (left; discriminate).
  split; [exact H |]. exact (proj2 Line3_Set_nil_receiver ex_heap (VObj 1) VNil H).
Defined.

(** X3. Every other method panics on a nil receiver, whatever its
    arguments: the accessors, [Copy], [Clone], [Center], [Delta],
    [DistanceSq], [Distance], [ApplyMatrix4], [Equals], and both
    traversals, whatever the callback. *)
Theorem Line3_nil_receiver_panics :
  (forall h : heap, Line3_Start LNil h = Panic) /\
  (forall h : heap, Line3_End LNil h = Panic) /\
  (forall (other : lptr) (h : heap), Line3_Copy LNil other h = Panic) /\
  (forall h : heap, Line3_Clone LNil h = Panic) /\
  (forall (t : vptr) (h : heap), Line3_Center LNil t h = Panic) /\
  (forall (t : vptr) (h : heap), Line3_Delta LNil t h = Panic) /\
  (forall h : heap, Line3_DistanceSq LNil h = Panic) /\
  (forall h : heap, Line3_Distance LNil h = Panic) /\
  (forall (m : mptr) (h : heap), Line3_ApplyMatrix4 LNil m h = Panic) /\
  (forall (other : lptr) (h : heap), Line3_Equals LNil other h = Panic) /\
  (forall (Σ : Type) (cb : callback Σ vptr) (w : world Σ),
     Line3_OperateOnVertices LNil cb w = Panic) /\
  (forall (Σ : Type) (cb : callback Σ Vector3) (w : world Σ),
     Line3_ReadVertices LNil cb w = Panic).
Proof.
  repeat split; try done.
  - intros other h. unfold Line3_Copy, bind. by destruct (load_line other h).
  - intros t h. unfold Line3_Center, bind. by destruct t.
  - intros t h. unfold Line3_Delta, bind. by destruct t.
  - intros other h. unfold Line3_Equals, bind. by destruct other.
Qed.

(** ** X4: what Set leaves alone *)

(** X4. On a live line, [Set(s, e)] with arguments nil or live changes
    nothing but the two endpoints of its receiver: every vector object,
    every other line, and so whatever is read through any pointer that
    does not point into the receiver, the arguments included, is as it
    was. *)
Theorem Line3_Set_frame (h : heap) (a : positive) (s e : vptr) (ln : Line3) :
  heap_load_line (LObj a) h = Some ln ->
  vlive_or_nil h s -> vlive_or_nil h e ->
  exists h',
    Line3_Set (LObj a) s e h = Ok (LObj a) h' /\
    vecs h' = vecs h /\
    (forall b, b <> a -> lines h' !! b = lines h !! b) /\
    (forall q, q <> VStart a -> q <> VEnd a -> heap_load q h' = heap_load q h).
Proof.
  intros Hl Hs He. destruct ln as [A B].
  destruct (Line3_Set_run h a s e A B Hl Hs He) as (h' & R & _ & V & F).
  exists h'. split; [done |]. split; [done |]. split; [done |].
  intros q N1 N2. by apply (heap_load_frame h h' a).
Qed.

Lemma Line3_Set_frame_witness :
  heap_load_line (LObj 1) ex_heap = Some (mkLine3 vec_zero ex_x2) /\
  vlive_or_nil ex_heap (VEnd 3) /\ vlive_or_nil ex_heap (VObj 1) /\
  exists h',
    Line3_Set (LObj 1) (VEnd 3) (VObj 1) ex_heap = Ok (LObj 1) h' /\
    heap_load (VEnd 3) h' = Some ex_x2z1 /\
    heap_load (VObj 1) h' = Some ex_x2z1.
Proof.
  assert (heap_load_line (LObj 1) ex_heap = Some (mkLine3 vec_zero ex_x2)) as Hl by reflexivity.
  assert (vlive_or_nil ex_heap (VEnd 3)) as Hs by (right; eexists; reflexivity).
  assert (vlive_or_nil ex_heap (VObj 1)) as He by (right; eexists; reflexivity).
  split; [exact Hl |]. split; [exact Hs |]. split; [exact He |].
  destruct (Line3_Set_frame ex_heap 1 (VEnd 3) (VObj 1) _ Hl Hs He) as (h' & R & _ & _ & F).
  exists h'. split; [exact R |]. split.
  - rewrite F; [reflexivity | discriminate | discriminate].
  - rewrite F; [reflexivity | discriminate | discriminate].
Defined.

(** ** X5, X6: Copy *)

(** X5. For live lines [l] and [other], the same or different,
    [l.Copy(other)] and [l.Set(other.Start(), other.End())] return the
    same pointer and leave the same heap. *)
Theorem Line3_Copy_is_Set_of_accessors (h : heap) (a b : positive) (la lb : Line3) :
  heap_load_line (LObj a) h = Some la ->
  heap_load_line (LObj b) h = Some lb ->
  Line3_Copy (LObj a) (LObj b) h =
  (let* s := Line3_Start (LObj b) in
   let* e := Line3_End (LObj b) in
   Line3_Set (LObj a) s e) h.
Proof.
  intros Ha Hb. rewrite (Line3_Copy_as_Set h a b la lb Ha Hb). reflexivity.
Qed.

Lemma Line3_Copy_is_Set_of_accessors_witness :
  heap_load_line (LObj 1) ex_heap = Some (mkLine3 vec_zero ex_x2) /\
  heap_load_line (LObj 3) ex_heap = Some (mkLine3 vec_zero ex_x2z1) /\
  Line3_Copy (LObj 1) (LObj 3) ex_heap =
  (let* s := Line3_Start (LObj 3) in
   let* e := Line3_End (LObj 3) in
   Line3_Set (LObj 1) s e) ex_heap.
Proof.
  assert (heap_load_line (LObj 1) ex_heap = Some (mkLine3 vec_zero ex_x2)) as H1 by reflexivity.
  assert (heap_load_line (LObj 3) ex_heap = Some (mkLine3 vec_zero ex_x2z1)) as H3 by reflexivity.
  split; [exact H1 |]. split; [exact H3 |].
  exact (Line3_Copy_is_Set_of_accessors ex_heap 1 3 _ _ H1 H3).
Defined.

(** X6. Copying a live line onto itself, [l.Copy(l)], returns [l] and
    leaves the whole heap exactly as it was. *)
Theorem Line3_Copy_self (h : heap) (a : positive) (ln : Line3) :
  heap_load_line (LObj a) h = Some ln ->
  Line3_Copy (LObj a) (LObj a) h = Ok (LObj a) h.
Proof.
  intros Hl. unfold Line3_Copy, bind, load_line, store_line. rewrite Hl.
  simpl in *. rewrite Hl. cbn [ret]. f_equal.
  destruct h as [vs ls]. simpl in *. f_equal. by apply insert_id.
Qed.

Lemma Line3_Copy_self_witness :
  heap_load_line (LObj 3) ex_heap = Some (mkLine3 vec_zero ex_x2z1) /\
  Line3_Copy (LObj 3) (LObj 3) ex_heap = Ok (LObj 3) ex_heap.
Proof.
  assert (heap_load_line (LObj 3) ex_heap = Some (mkLine3 vec_zero ex_x2z1)) as H3 by reflexivity.
  split; [exact H3 |]. exact (Line3_Copy_self ex_heap 3 _ H3).
Defined.

(** ** X7, X8: Clone and NewLine3 *)

(** X7. For a live line [l], [l.Clone()] and
    [NewLine3(nil, nil).Copy(l)] return the same pointer and leave the
    same heap. *)
Theorem Line3_Clone_is_New_then_Copy (h : heap) (l : positive) (ln : Line3) :
  heap_load_line (LObj l) h = Some ln ->
  Line3_Clone (LObj l) h =
  (let* c := NewLine3 VNil VNil in Line3_Copy c (LObj l)) h.
Proof.
  intros Hl. unfold Line3_Clone, NewLine3, bind. cbn [field_start field_end ret].
  destruct (new_line_run h) as (c & h0 & R0 & Hf & L0 & V0 & F0). rewrite R0.
  assert (c <> l) as Hne by (intros ->; simpl in Hl; congruence).
  assert (heap_load_line (LObj l) h0 = Some ln) as Hl0.
  { simpl. rewrite F0 by done. exact Hl. }
  change (Line3_Set (LObj c) VNil VNil h0) with (Ok (S := heap) (LObj c) h0).
  cbn [ret]. rewrite (Line3_Copy_as_Set h0 c l _ _ L0 Hl0).
  destruct ln as [A B].
  destruct (Line3_Set_run h0 c (VStart l) (VEnd l) vec_zero vec_zero L0
              (or_intror (vlive_start _ _ _ Hl0)) (or_intror (vlive_end _ _ _ Hl0)))
    as (h1 & R1 & _).
  by rewrite R1.
Qed.

Lemma Line3_Clone_is_New_then_Copy_witness :
  heap_load_line (LObj 3) ex_heap = Some (mkLine3 vec_zero ex_x2z1) /\
  Line3_Clone (LObj 3) ex_heap =
  (let* c := NewLine3 VNil VNil in Line3_Copy c (LObj 3)) ex_heap.
Proof.
  assert (heap_load_line (LObj 3) ex_heap = Some (mkLine3 vec_zero ex_x2z1)) as H3 by reflexivity.
  split; [exact H3 |]. exact (Line3_Clone_is_New_then_Copy ex_heap 3 _ H3).
Defined.

(** X8. [NewLine3] and [Clone] change no object that existed before the
    call: the line they return is at an address that held no line, and
    every vector object, every line and whatever is read through any
    pointer that was live before is as it was. *)
Theorem NewLine3_Clone_frame (h : heap) :
  (forall s e : vptr,
     vlive_or_nil h s -> vlive_or_nil h e ->
     exists c h',
       NewLine3 s e h = Ok (LObj c) h' /\
       lines h !! c = None /\
       vecs h' = vecs h /\
       (forall b ln, lines h !! b = Some ln -> lines h' !! b = Some ln) /\
       (forall q, vlive h q -> heap_load q h' = heap_load q h)) /\
  (forall (l : positive) (ln0 : Line3),
     heap_load_line (LObj l) h = Some ln0 ->
     exists c h',
       Line3_Clone (LObj l) h = Ok (LObj c) h' /\
       lines h !! c = None /\
       vecs h' = vecs h /\
       (forall b ln, lines h !! b = Some ln -> lines h' !! b = Some ln) /\
       (forall q, vlive h q -> heap_load q h' = heap_load q h)).
Proof.
  split.
  - intros s e Hs He.
    destruct (NewLine3_run h s e Hs He) as (c & h' & R & Hf & _ & V & F).
    exists c, h'. split; [done |]. split; [done |]. split; [done |]. split.
    + intros b ln Hb. rewrite F; [done | congruence].
    + intros q Hq. by apply (vlive_or_nil_frame h h' c q V F Hf (or_intror Hq)).
  - intros l [A B] Hl.
    destruct (Line3_Clone_run h l A B Hl) as (c & h' & R & _ & Hf & _ & _ & V & F).
    exists c, h'. split; [done |]. split; [done |]. split; [done |]. split.
    + intros b ln Hb. rewrite F; [done | congruence].
    + intros q Hq. by apply (vlive_or_nil_frame h h' c q V F Hf (or_intror Hq)).
Qed.

Lemma NewLine3_Clone_frame_witness :
  heap_load_line (LObj 3) ex_heap = Some (mkLine3 vec_zero ex_x2z1) /\
  exists c h',
    Line3_Clone (LObj 3) ex_heap = Ok (LObj c) h' /\
    lines ex_heap !! c = None /\
    vecs h' = vecs ex_heap.
Proof.
  assert (heap_load_line (LObj 3) ex_heap = Some (mkLine3 vec_zero ex_x2z1)) as H3 by reflexivity.
  split; [exact H3 |].
  destruct (proj2 (NewLine3_Clone_frame ex_heap) 3%positive _ H3) as (c & h' & R & Hf & V & _).
  exists c, h'. split; [exact R |]. split; [exact Hf | exact V].
Defined.

(** ** X9: Set twice *)

(** X9. On a live line, with arguments nil or live, repeating
    [Set(s, e)] changes nothing more, provided [s] is not a pointer to
    the receiver's own end endpoint: the second call leaves the heap as
    the first one left it. *)
Theorem Line3_Set_twice (h : heap) (a : positive) (s e : vptr) (ln : Line3) :
  heap_load_line (LObj a) h = Some ln ->
  vlive_or_nil h s -> vlive_or_nil h e ->
  s <> VEnd a ->
  (let* _ := Line3_Set (LObj a) s e in Line3_Set (LObj a) s e) h =
  Line3_Set (LObj a) s e h.
Proof.
  intros Hl Hs He Hn. destruct ln as [A B]. unfold bind at 1.
  destruct (Line3_Set_run h a s e A B Hl Hs He) as (h1 & R1 & L1 & V1 & F1).
  rewrite R1.
  assert (forall q, q <> VStart a -> q <> VEnd a -> heap_load q h1 = heap_load q h) as O1
    by (intros q N1 N2; by apply (heap_load_frame h h1 a)).
  assert (forall q, vlive_or_nil h q -> vlive_or_nil h1 q) as Lv.
  { intros q [-> | [v Hv]]; [by left | right].
    destruct (decide (q = VStart a)) as [-> | N1]; [by eapply vlive_start |].
    destruct (decide (q = VEnd a)) as [-> | N2]; [by eapply vlive_end |].
    exists v. by rewrite O1. }
  destruct (Line3_Set_run h1 a s e _ _ L1 (Lv s Hs) (Lv e He)) as (h2 & R2 & L2 & V2 & F2).
  rewrite R2. f_equal.
  apply (heap_determined h1 h2 h1 a
           (mkLine3 (default A (heap_load s h))
                    (if decide (e = VStart a) then default A (heap_load s h)
                     else default B (heap_load e h)))); try done.
  rewrite L2.
  assert (default (default A (heap_load s h)) (heap_load s h1) = default A (heap_load s h)) as ->.
  { destruct (decide (s = VStart a)) as [-> | N1].
    - by rewrite (heap_load_line_start _ _ _ L1).
    - destruct Hs as [-> | [v Hv]]; [done |]. rewrite O1 by done. by rewrite Hv. }
  f_equal. f_equal. case_decide as Hd; [done |].
  destruct (decide (e = VEnd a)) as [-> | N2].
  - by rewrite (heap_load_line_end _ _ _ L1).
  - destruct He as [-> | [v Hv]]; [done |]. rewrite O1 by done. by rewrite Hv.
Qed.

Lemma Line3_Set_twice_witness :
  heap_load_line (LObj 1) ex_heap = Some (mkLine3 vec_zero ex_x2) /\
  vlive_or_nil ex_heap (VObj 1) /\ vlive_or_nil ex_heap (VStart 1) /\
  VObj 1 <> VEnd 1 /\
  (let* _ := Line3_Set (LObj 1) (VObj 1) (VStart 1) in
   Line3_Set (LObj 1) (VObj 1) (VStart 1)) ex_heap =
  Line3_Set (LObj 1) (VObj 1) (VStart 1) ex_heap.
Proof.
  assert (heap_load_line (LObj 1) ex_heap = Some (mkLine3 vec_zero ex_x2)) as Hl by reflexivity.
  assert (vlive_or_nil ex_heap (VObj 1)) as Hs by (right; eexists; reflexivity).
  assert (vlive_or_nil ex_heap (VStart 1)) as He by (right; eexists; reflexivity).
  assert (VObj 1 <> VEnd 1) as Hn by discriminate.
  split; [exact Hl |]. split; [exact Hs |]. split; [exact He |]. split; [exact Hn |].
  exact (Line3_Set_twice ex_heap 1 (VObj 1) (VStart 1) _ Hl Hs He Hn).
Defined.

(** ** X10: the two traversals agree on callbacks that only read *)

(** X10. For a callback that only reads the vertex it is given, the
    traversal by pointer and the traversal by value make the same
    decisions: both leave the heap unchanged, leave the callback's
    captured variables in the same state, and call the callback the same
    number of times, on [&l.start] and [&l.end] in one case and on the
    values of the two endpoints in the other. *)
Theorem Line3_traversals_agree (Σ : Type) (a : positive) (f : Vector3 -> Σ -> bool * Σ)
    (w : world Σ) (A B : Vector3) :
  heap_load_line (LObj a) (mem w) = Some (mkLine3 A B) ->
  exists w1 w2,
    Line3_OperateOnVertices (LObj a) (read_cb f) w = Ok tt w1 /\
    Line3_ReadVertices (LObj a) (value_cb f) w = Ok tt w2 /\
    mem w1 = mem w /\ mem w2 = mem w /\
    env w1 = env w2 /\
    calls w1 = calls w ++ (if fst (f A (env w)) then [CallPtr (VStart a)]
                           else [CallPtr (VStart a); CallPtr (VEnd a)]) /\
    calls w2 = calls w ++ (if fst (f A (env w)) then [CallVal A]
                           else [CallVal A; CallVal B]).
Proof.
  intros Hl.
  pose proof (heap_load_line_start _ _ _ Hl) as HA.
  pose proof (heap_load_line_end _ _ _ Hl) as HB. cbn [start end_] in HA, HB.
  destruct (f A (env w)) as [b1 σ1] eqn:E1. cbn [fst]. destruct b1.
  - eexists. eexists. split.
    { apply OperateOnVertices_stop. unfold read_cb. rewrite (load_some _ _ _ HA).
      rewrite E1. reflexivity. }
    split.
    { eapply ReadVertices_stop; [exact Hl |]. unfold value_cb. rewrite E1. reflexivity. }
    done.
  - destruct (f B σ1) as [b2 σ2] eqn:E2.
    eexists. eexists. split.
    { eapply OperateOnVertices_go.
      - unfold read_cb. rewrite (load_some _ _ _ HA). rewrite E1. reflexivity.
      - unfold read_cb. rewrite (load_some _ _ _ HB). rewrite E2. reflexivity. }
    split.
    { eapply ReadVertices_go; [exact Hl | | exact HB |].
      - unfold value_cb. rewrite E1. reflexivity.
      - unfold value_cb. rewrite E2. reflexivity. }
    done.
Qed.

Lemma Line3_traversals_agree_witness :
  heap_load_line (LObj 1) (mem (mkWorld ex_heap 0 [])) = Some (mkLine3 vec_zero ex_x2) /\
  exists w1 w2,
    Line3_OperateOnVertices (LObj 1) (read_cb (fun _ n => (false, S n)))
      (mkWorld ex_heap 0 []) = Ok tt w1 /\
    Line3_ReadVertices (LObj 1) (value_cb (fun _ n => (false, S n)))
      (mkWorld ex_heap 0 []) = Ok tt w2 /\
    env w1 = env w2.
Proof.
  assert (heap_load_line (LObj 1) (mem (mkWorld ex_heap 0 [])) = Some (mkLine3 vec_zero ex_x2))
    as Hl by reflexivity.
  split; [exact Hl |].
  destruct (Line3_traversals_agree nat 1 (fun _ n => (false, S n)) (mkWorld ex_heap 0 [])
              vec_zero ex_x2 Hl) as (w1 & w2 & R1 & R2 & _ & _ & E & _).
  exists w1, w2. split; [exact R1 |]. split; [exact R2 | exact E].
Defined.

(** ** X11: a clone restores the line *)

(** X11. A clone taken before a change brings the line back: after
    [c := l.Clone()], any [l.Set(s, e)] with arguments that were nil or
    live before, and then [l.Copy(c)], the line [l] has the endpoints it
    had at the start, and the clone still has them too. *)
Theorem Line3_Clone_Set_Copy_restores (h : heap) (a : positive) (s e : vptr) (A B : Vector3) :
  heap_load_line (LObj a) h = Some (mkLine3 A B) ->
  vlive_or_nil h s -> vlive_or_nil h e ->
  exists c h',
    (let* c := Line3_Clone (LObj a) in
     let* _ := Line3_Set (LObj a) s e in
     let* _ := Line3_Copy (LObj a) c in
     ret c) h = Ok (LObj c) h' /\
    c <> a /\
    heap_load_line (LObj a) h' = Some (mkLine3 A B) /\
    heap_load_line (LObj c) h' = Some (mkLine3 A B).
Proof.
  intros Hl Hs He. unfold bind.
  destruct (Line3_Clone_run h a A B Hl) as (c & h1 & R1 & Hne & Hf & Lc & La & V1 & F1).
  rewrite R1.
  destruct (vlive_or_nil_frame h h1 c s V1 F1 Hf Hs) as [Hs1 _].
  destruct (vlive_or_nil_frame h h1 c e V1 F1 Hf He) as [He1 _].
  destruct (Line3_Set_run h1 a s e A B La Hs1 He1) as (h2 & R2 & L2 & V2 & F2).
  rewrite R2.
  assert (heap_load_line (LObj c) h2 = Some (mkLine3 A B)) as Lc2.
  { simpl. rewrite F2 by done. exact Lc. }
  destruct (Line3_Copy_run h2 a c _ _ L2 Lc2) as (h3 & R3 & L3 & Lc3 & _).
  rewrite R3. by exists c, h3.
Qed.

Lemma Line3_Clone_Set_Copy_restores_witness :
  heap_load_line (LObj 1) ex_heap = Some (mkLine3 vec_zero ex_x2) /\
  vlive_or_nil ex_heap (VObj 1) /\ vlive_or_nil ex_heap (VStart 1) /\
  exists c h',
    (let* c := Line3_Clone (LObj 1) in
     let* _ := Line3_Set (LObj 1) (VObj 1) (VStart 1) in
     let* _ := Line3_Copy (LObj 1) c in
     ret c) ex_heap = Ok (LObj c) h' /\
    heap_load_line (LObj 1) h' = Some (mkLine3 vec_zero ex_x2).
Proof.
  assert (heap_load_line (LObj 1) ex_heap = Some (mkLine3 vec_zero ex_x2)) as Hl by reflexivity.
  assert (vlive_or_nil ex_heap (VObj 1)) as Hs by (right; eexists; reflexivity).
  assert (vlive_or_nil ex_heap (VStart 1)) as He by (right; eexists; reflexivity).
  split; [exact Hl |]. split; [exact Hs |]. split; [exact He |].
  destruct (Line3_Clone_Set_Copy_restores ex_heap 1 (VObj 1) (VStart 1) vec_zero ex_x2 Hl Hs He)
    as (c & h' & R & _ & L & _).
  exists c, h'. split; [exact R | exact L].
Defined.
